(** * rebuild_certificate.py: a shallow embedding and its properties

    The script rebuilds a TLS trust bundle for one host.  It is a linear
    pipeline of six functions ([fetch_leaf_cert], [extract_aia_issuer_url],
    [download_issuer], [issuer_to_pem], [build_bundle], [verify_bundle])
    called in this order by [main].  Every function talks to the outside
    world through a sub-process ([openssl], [curl]) and through four files
    of the working directory.

    The embedding keeps this shape: Python [str] is a list of code points,
    [bytes] a list of octets, the four files are a record of optional byte
    strings, the sub-processes are oracles gathered in a record [Env], and
    the functions live in a state-and-exception monad whose state also
    records which functions were entered and which commands were run.

    Left out: the creation of the working directory when the module is
    loaded (the directory is taken to exist and to be writable), and the
    wording of the three lines [main] prints at the end, which are one
    event here. *)

From Stdlib Require Import NArith ZArith Lia String Ascii.
From stdpp Require Import base list.

Local Open Scope N_scope.

(** ** Text and bytes *)

(** A Python [str] is a sequence of Unicode code points; a [bytes] object
    is a sequence of octets.  Both are lists of [N]. *)
Abbreviation char := N (only parsing).
Abbreviation str := (list N) (only parsing).
Abbreviation bytes := (list N) (only parsing).

(** String and bytes literals of the script (all of them are ASCII). *)
Definition lit (s : string) : list N :=
  map N_of_ascii (list_ascii_of_string s).

Definition NL : char := 10.
Definition CR : char := 13.

(** [s.startswith(p)], on [str] and on [bytes] alike. *)
Fixpoint starts_with (p s : list N) : bool :=
  match p, s with
  | [], _ => true
  | _ :: _, [] => false
  | a :: p', b :: s' => N.eqb a b && starts_with p' s'
  end.

(** [needle in hay], on [str] and on [bytes] alike. *)
Fixpoint contains (needle hay : list N) : bool :=
  starts_with needle hay ||
  match hay with
  | [] => false
  | _ :: t => contains needle t
  end.

(** [str.isspace] of one character, which is also what the pattern [\s]
    matches on a [str]: the code points Python classes as whitespace. *)
Definition is_space (c : char) : bool :=
  ((9 <=? c) && (c <=? 13)) || ((28 <=? c) && (c <=? 32))
  || (c =? 133) || (c =? 160) || (c =? 5760)
  || ((8192 <=? c) && (c <=? 8202))
  || (c =? 8232) || (c =? 8233) || (c =? 8239) || (c =? 8287)
  || (c =? 12288).

Definition non_space (c : char) : bool := negb (is_space c).

(** The longest prefix of [s] whose characters all satisfy [p]. *)
Fixpoint take_while (p : char -> bool) (s : str) : str :=
  match s with
  | [] => []
  | c :: t => if p c then c :: take_while p t else []
  end.

(** What is left of [s] after that prefix. *)
Fixpoint drop_while (p : char -> bool) (s : str) : str :=
  match s with
  | [] => []
  | c :: t => if p c then drop_while p t else s
  end.

(** ** Regular expressions of the script

    [re.search] tries the pattern at every start position, from the left,
    the empty suffix included, and returns the first success. *)
Fixpoint re_search {A : Type} (at_pos : str -> option A) (s : str)
  : option A :=
  match at_pos s with
  | Some r => Some r
  | None =>
      match s with
      | [] => None
      | _ :: t => re_search at_pos t
      end
  end.

(** [.*?] followed by the literal [stop], under [re.S]: the characters
    skipped before the nearest place where [stop] matches. *)
Fixpoint lazy_until (stop s : str) : option str :=
  if starts_with stop s then Some []
  else match s with
       | [] => None
       | c :: t => option_map (cons c) (lazy_until stop t)
       end.

Definition BEGIN_CERTIFICATE : list N := lit "-----BEGIN CERTIFICATE-----".
Definition END_CERTIFICATE : list N := lit "-----END CERTIFICATE-----".

(** The pattern
    [-----BEGIN CERTIFICATE-----.*?-----END CERTIFICATE-----]
    tried at the start of [s]; the result is [m.group(0)]. *)
Definition match_pem_block (s : str) : option str :=
  if starts_with BEGIN_CERTIFICATE s then
    match lazy_until END_CERTIFICATE (drop (length BEGIN_CERTIFICATE) s) with
    | Some body => Some (BEGIN_CERTIFICATE ++ body ++ END_CERTIFICATE)
    | None => None
    end
  else None.

Definition CA_ISSUERS_URI : str := lit "CA Issuers - URI:".

(** The pattern [CA Issuers - URI:(\S+)] tried at the start of [s]; the
    result is [m.group(1)], the greedy run of non-blank characters, which
    has to be non-empty. *)
Definition match_ca_issuers (s : str) : option str :=
  if starts_with CA_ISSUERS_URI s then
    match take_while non_space (drop (length CA_ISSUERS_URI) s) with
    | [] => None
    | g => Some g
    end
  else None.

(** ** UTF-8, as [bytes.decode("utf-8", errors)] and [str.encode("utf-8")] *)

Definition is_continuation (b : N) : bool := (128 <=? b) && (b <=? 191).

(** What the decoder finds at the head of its input: a character taking
    [n] bytes, an ill-formed sequence whose reported error range is [n]
    bytes long, or an incomplete sequence that runs to the end of the
    data (the error range is then everything that is left). *)
Inductive utf8_head : Type :=
| Decoded (c : char) (n : nat)
| Invalid (n : nat)
| Truncated.

Definition utf8_next (b0 : N) (t : bytes) : utf8_head :=
  if b0 <? 128 then Decoded b0 1
  else if b0 <? 194 then Invalid 1
  else if b0 <? 224 then
    match t with
    | [] => Truncated
    | b1 :: _ =>
        if is_continuation b1
        then Decoded ((b0 - 192) * 64 + (b1 - 128)) 2
        else Invalid 1
    end
  else if b0 <? 240 then
    match t with
    | [] => Truncated
    | b1 :: t1 =>
        if negb (is_continuation b1)
           || (if b1 <? 160 then b0 =? 224 else b0 =? 237)
        then Invalid 1
        else match t1 with
             | [] => Truncated
             | b2 :: _ =>
                 if is_continuation b2
                 then Decoded ((b0 - 224) * 4096 + (b1 - 128) * 64
                               + (b2 - 128)) 3
                 else Invalid 2
             end
    end
  else if b0 <? 245 then
    match t with
    | [] => Truncated
    | b1 :: t1 =>
        if negb (is_continuation b1)
           || (if b1 <? 144 then b0 =? 240 else b0 =? 244)
        then Invalid 1
        else match t1 with
             | [] => Truncated
             | b2 :: t2 =>
                 if negb (is_continuation b2) then Invalid 2
                 else match t2 with
                      | [] => Truncated
                      | b3 :: _ =>
                          if is_continuation b3
                          then Decoded ((b0 - 240) * 262144
                                        + (b1 - 128) * 4096
                                        + (b2 - 128) * 64 + (b3 - 128)) 4
                          else Invalid 3
                      end
             end
    end
  else Invalid 1.

(** The error handlers the script uses: ["strict"] (the default) raises
    [UnicodeDecodeError], ["ignore"] drops the bytes of the error range. *)
Inductive errors_mode : Type := Strict | Ignore.

(** The decoder walks the bytes once; [skip] counts the bytes of the
    sequence in progress that are still to be passed over.  [None] is
    [UnicodeDecodeError]. *)
Fixpoint decode_from (errors : errors_mode) (skip : nat) (s : bytes)
  : option str :=
  match s with
  | [] => Some []
  | b0 :: t =>
      match skip with
      | S k => decode_from errors k t
      | O =>
          match utf8_next b0 t with
          | Decoded c n => option_map (cons c) (decode_from errors (pred n) t)
          | Invalid n =>
              match errors with
              | Strict => None
              | Ignore => decode_from errors (pred n) t
              end
          | Truncated =>
              match errors with
              | Strict => None
              | Ignore => Some []
              end
          end
      end
  end.

Definition decode_utf8 (errors : errors_mode) (b : bytes) : option str :=
  decode_from errors 0 b.

(** One character encoded; [None] is [UnicodeEncodeError], raised for the
    surrogate code points (and for numbers that are no code point). *)
Definition encode_char (c : char) : option bytes :=
  if c <? 128 then Some [c]
  else if c <? 2048 then Some [192 + c / 64; 128 + c mod 64]
  else if c <? 65536 then
    if (55296 <=? c) && (c <=? 57343) then None
    else Some [224 + c / 4096; 128 + (c / 64) mod 64; 128 + c mod 64]
  else if c <? 1114112 then
    Some [240 + c / 262144; 128 + (c / 4096) mod 64;
          128 + (c / 64) mod 64; 128 + c mod 64]
  else None.

Fixpoint encode_utf8 (s : str) : option bytes :=
  match s with
  | [] => Some []
  | c :: t =>
      match encode_char c, encode_utf8 t with
      | Some bc, Some bt => Some (bc ++ bt)
      | _, _ => None
      end
  end.

(** ** Text-mode files

    [Path.read_text] opens the file with [newline=None]: after decoding,
    every ["\r\n"] and every lone ["\r"] becomes ["\n"]. *)
Fixpoint universal_newlines (s : str) : str :=
  match s with
  | [] => []
  | c :: t =>
      if c =? CR then
        NL :: match t with
              | [] => []
              | d :: t' =>
                  if d =? NL then universal_newlines t'
                  else universal_newlines t
              end
      else c :: universal_newlines t
  end.

(** ** [str] methods used by the verifier *)

Definition lstrip (s : str) : str := drop_while is_space s.
Definition rstrip (s : str) : str := reverse (lstrip (reverse s)).
Definition strip (s : str) : str := rstrip (lstrip s).

(** The characters [str.splitlines] treats as line boundaries. *)
Definition is_linebreak (c : char) : bool :=
  ((10 <=? c) && (c <=? 13)) || ((28 <=? c) && (c <=? 30))
  || (c =? 133) || (c =? 8232) || (c =? 8233).

(** [cur] is the line being read, last character first.  ["\r\n"] is one
    boundary, and a boundary at the very end opens no further line. *)
Fixpoint splitlines_from (cur : str) (s : str) : list str :=
  match s with
  | [] => match cur with [] => [] | _ => [reverse cur] end
  | c :: t =>
      if is_linebreak c then
        reverse cur ::
        match t with
        | [] => []
        | d :: t' =>
            if (c =? CR) && (d =? NL) then splitlines_from [] t'
            else splitlines_from [] t
        end
      else splitlines_from (c :: cur) t
  end.

Definition splitlines (s : str) : list str := splitlines_from [] s.

(** [l[-n:]] for a positive [n]. *)
Definition last_n {A : Type} (n : nat) (l : list A) : list A :=
  drop (length l - n) l.

(** [sep.join(l)]. *)
Fixpoint join (sep : str) (l : list str) : str :=
  match l with
  | [] => []
  | [x] => x
  | x :: rest => x ++ sep ++ join sep rest
  end.

(** ** The working directory, the exceptions, the observable events *)

(** The four artifacts of [.cert_work]. *)
Inductive path : Type := LEAF_PEM | ISSUER_BIN | ISSUER_PEM | BUNDLE_PEM.

(** The content of each of them; [None] when the file does not exist. *)
Record files : Type := Files {
  leaf_pem : option bytes;
  issuer_bin : option bytes;
  issuer_pem : option bytes;
  bundle_pem : option bytes
}.

Definition lookup_file (p : path) (d : files) : option bytes :=
  match p with
  | LEAF_PEM => leaf_pem d
  | ISSUER_BIN => issuer_bin d
  | ISSUER_PEM => issuer_pem d
  | BUNDLE_PEM => bundle_pem d
  end.

Definition store_file (p : path) (b : bytes) (d : files) : files :=
  match p with
  | LEAF_PEM => Files (Some b) (issuer_bin d) (issuer_pem d) (bundle_pem d)
  | ISSUER_BIN => Files (leaf_pem d) (Some b) (issuer_pem d) (bundle_pem d)
  | ISSUER_PEM => Files (leaf_pem d) (issuer_bin d) (Some b) (bundle_pem d)
  | BUNDLE_PEM => Files (leaf_pem d) (issuer_bin d) (issuer_pem d) (Some b)
  end.

(** The command lines of the script. *)
Inductive command : Type :=
| openssl_s_client_showcerts     (* s_client -connect .. -servername .. -showcerts *)
| openssl_x509_text              (* x509 -in LEAF_PEM -noout -text *)
| curl_L_o (url : str)           (* curl -L url -o ISSUER_BIN *)
| openssl_x509_inform_DER        (* x509 -inform DER -in ISSUER_BIN -out ISSUER_PEM *)
| openssl_s_client_CAfile.       (* s_client .. -CAfile BUNDLE_PEM -verify_return_error *)

(** The functions of the script. *)
Inductive func : Type :=
| f_fetch_leaf_cert | f_extract_aia_issuer_url | f_download_issuer
| f_issuer_to_pem | f_build_bundle | f_verify_bundle.

(** What an observer of a run sees besides the files. *)
Inductive event : Type :=
| Enter (f : func)
| Exec (c : command)
| PrintBundleReady.

(** The exceptions a run can end with.  [RuntimeError] is the only one
    the script raises itself; the others come from [subprocess.run] with
    [check=True], from opening a missing file and from the codec. *)
Inductive exn : Type :=
| RuntimeError (msg : str)
| CalledProcessError (cmd : command) (returncode : Z)
| FileNotFoundError
| UnicodeDecodeError
| UnicodeEncodeError.

Record world : Type := World {
  disk : files;
  log : list event
}.

(** ** The monad of the script: state, and an exception or a value *)

Inductive result (A : Type) : Type :=
| Return (a : A)
| Raise (e : exn).
Arguments Return {A} a.
Arguments Raise {A} e.

Definition M (A : Type) : Type := world -> result A * world.

Definition ret {A : Type} (a : A) : M A := fun w => (Return a, w).

Definition raise {A : Type} (e : exn) : M A := fun w => (Raise e, w).

Definition bind {A B : Type} (c : M A) (k : A -> M B) : M B :=
  fun w =>
    match c w with
    | (Return a, w') => k a w'
    | (Raise e, w') => (Raise e, w')
    end.

Notation "'let*' x ':=' c 'in' k" := (bind c (fun x => k))
  (at level 10, x pattern, c at level 100, k at level 200).

Definition emit (e : event) : M unit :=
  fun w => (Return tt, World (disk w) (log w ++ [e])).

Definition stat (p : path) : M (option bytes) :=
  fun w => (Return (lookup_file p (disk w)), w).

Definition write_bytes (p : path) (b : bytes) : M unit :=
  fun w => (Return tt, World (store_file p b (disk w)) (log w)).

(** [open(p, "rb").read()] of a file whose content is [f]. *)
Definition read_bytes_of (f : option bytes) : M bytes :=
  match f with
  | Some b => ret b
  | None => raise FileNotFoundError
  end.

Definition read_bytes (p : path) : M bytes :=
  let* f := stat p in read_bytes_of f.

(** [Path.read_text(encoding="utf-8", errors=...)]. *)
Definition read_text_of (errors : errors_mode) (f : option bytes) : M str :=
  let* b := read_bytes_of f in
  match decode_utf8 errors b with
  | Some s => ret (universal_newlines s)
  | None => raise UnicodeDecodeError
  end.

Definition read_text (errors : errors_mode) (p : path) : M str :=
  let* f := stat p in read_text_of errors f.

(** [Path.write_text(s, encoding="utf-8")]; the line separator of the
    platform is ["\n"], so that nothing is translated on the way out. *)
Definition write_text (p : path) (s : str) : M unit :=
  match encode_utf8 s with
  | Some b => write_bytes p b
  | None => raise UnicodeEncodeError
  end.

(** ** The sub-processes

    What a finished process hands back to [subprocess.run]; the two
    streams are taken as already decoded ([text=True]). *)
Record completed : Type := Completed {
  returncode : Z;
  stdout : str;
  stderr : str
}.

(** The outside world of one run.  A command that reads a file of the
    working directory is a function of the content of that file; a
    command told to write a file gives its exit status and, when it wrote
    the file, the bytes it wrote. *)
Record Env : Type := {
  s_client_showcerts : completed;
  x509_text : option bytes -> completed;
  curl : str -> Z * option bytes;
  x509_inform_DER : option bytes -> Z * option bytes;
  s_client_CAfile : option bytes -> completed;
  certifi_where : option bytes
}.

(** [subprocess.run(cmd, check=True, ...)] once the process has ended
    with status [rc]. *)
Definition check_returncode (c : command) (rc : Z) : M unit :=
  if Z.eqb rc 0 then ret tt else raise (CalledProcessError c rc).

(** [run(cmd, text=True)] for a process that ends as [p]. *)
Definition run (c : command) (p : completed) : M completed :=
  let* _ := emit (Exec c) in
  let* _ := check_returncode c (returncode p) in
  ret p.

(** A process that may write the file [out]. *)
Definition save_output (out : path) (saved : option bytes) : M unit :=
  match saved with
  | Some b => write_bytes out b
  | None => ret tt
  end.

(** ** The functions of the script *)

Section Pipeline.

Variable env : Env.

Definition MSG_EXTRACT : str :=
  lit "Could not extract leaf certificate from openssl output.".
Definition MSG_NO_AIA : str :=
  lit "No 'CA Issuers' AIA URL found in leaf certificate.".
Definition MSG_DOWNLOAD : str :=
  lit "Issuer download failed or file is too small.".
Definition MSG_CONVERT : str :=
  lit "DER->PEM conversion did not produce a PEM certificate.".
(** ["Bundle verification failed.\n\nLast lines:\n"] *)
Definition MSG_VERIFY : str :=
  lit "Bundle verification failed." ++ [NL; NL] ++ lit "Last lines:" ++ [NL].

Definition VERIFY_OK : str := lit "Verify return code: 0 (ok)".

Definition fetch_leaf_cert : M unit :=
  let* _ := emit (Enter f_fetch_leaf_cert) in
  let* p := run openssl_s_client_showcerts (s_client_showcerts env) in
  match re_search match_pem_block (stdout p) with
  | None => raise (RuntimeError MSG_EXTRACT)
  | Some g => write_text LEAF_PEM (g ++ [NL])
  end.

Definition extract_aia_issuer_url : M str :=
  let* _ := emit (Enter f_extract_aia_issuer_url) in
  let* leaf := stat LEAF_PEM in
  let* p := run openssl_x509_text (x509_text env leaf) in
  match re_search match_ca_issuers (stdout p) with
  | None => raise (RuntimeError MSG_NO_AIA)
  | Some g => ret g
  end.

Definition download_issuer (url : str) : M unit :=
  let* _ := emit (Enter f_download_issuer) in
  let* _ := emit (Exec (curl_L_o url)) in
  let* _ := save_output ISSUER_BIN (snd (curl env url)) in
  let* _ := check_returncode (curl_L_o url) (fst (curl env url)) in
  let* f := stat ISSUER_BIN in
  match f with
  | None => raise (RuntimeError MSG_DOWNLOAD)
  | Some b =>
      if (length b <? 200)%nat then raise (RuntimeError MSG_DOWNLOAD)
      else ret tt
  end.

Definition issuer_to_pem : M unit :=
  let* _ := emit (Enter f_issuer_to_pem) in
  let* data := read_bytes ISSUER_BIN in
  if contains BEGIN_CERTIFICATE data then
    write_bytes ISSUER_PEM data
  else
    let* _ := emit (Exec openssl_x509_inform_DER) in
    let* _ := save_output ISSUER_PEM (snd (x509_inform_DER env (Some data))) in
    let* _ := check_returncode openssl_x509_inform_DER
                (fst (x509_inform_DER env (Some data))) in
    let* f := stat ISSUER_PEM in
    match f with
    | None => raise (RuntimeError MSG_CONVERT)
    | Some _ =>
        let* text := read_text Ignore ISSUER_PEM in
        if contains (lit "BEGIN CERTIFICATE") text then ret tt
        else raise (RuntimeError MSG_CONVERT)
    end.

Definition build_bundle : M unit :=
  let* _ := emit (Enter f_build_bundle) in
  let* roots := read_text_of Strict (certifi_where env) in
  let* issuer := read_text Strict ISSUER_PEM in
  write_text BUNDLE_PEM (roots ++ [NL] ++ issuer ++ [NL]).

(** The last five lines of what the verifying client printed. *)
Definition last_lines (p : completed) : str :=
  join [NL] (last_n 5 (splitlines (strip (stdout p ++ [NL] ++ stderr p)))).

Definition verify_bundle : M unit :=
  let* _ := emit (Enter f_verify_bundle) in
  let* bundle := stat BUNDLE_PEM in
  let* _ := emit (Exec openssl_s_client_CAfile) in
  let joined := last_lines (s_client_CAfile env bundle) in
  if contains VERIFY_OK joined then ret tt
  else raise (RuntimeError (MSG_VERIFY ++ joined)).

Definition main : M unit :=
  let* _ := fetch_leaf_cert in
  let* url := extract_aia_issuer_url in
  let* _ := download_issuer url in
  let* _ := issuer_to_pem in
  let* _ := build_bundle in
  let* _ := verify_bundle in
  emit PrintBundleReady.

End Pipeline.

(** ** Notions used to state the properties *)

(** [text] holds a PEM certificate block: a begin marker and, after it,
    an end marker. *)
Definition has_block (text : str) : Prop :=
  exists pre body post,
    text = pre ++ BEGIN_CERTIFICATE ++ body ++ END_CERTIFICATE ++ post.

(** [BEGIN_CERTIFICATE ++ body ++ END_CERTIFICATE], found after [pre], is
    the first block of [text]: no block starts further left, and no block
    starting at the same place is shorter. *)
Definition first_block (text pre body post : str) : Prop :=
  text = pre ++ BEGIN_CERTIFICATE ++ body ++ END_CERTIFICATE ++ post /\
  forall pre' body' post',
    text = pre' ++ BEGIN_CERTIFICATE ++ body' ++ END_CERTIFICATE ++ post' ->
    (length pre <= length pre')%nat /\
    (length pre = length pre' -> (length body <= length body')%nat).

(** The functions a run entered, in order. *)
Fixpoint entered (evs : list event) : list func :=
  match evs with
  | [] => []
  | Enter f :: rest => f :: entered rest
  | _ :: rest => entered rest
  end.

(** The commands a run executed, in order. *)
Fixpoint executed (evs : list event) : list command :=
  match evs with
  | [] => []
  | Exec c :: rest => c :: executed rest
  | _ :: rest => executed rest
  end.

(** From [w0] to [w] the run entered exactly the functions [fs], in this
    order, and did not reach the closing report. *)
Definition entered_since (w0 : world) (fs : list func) (w : world) : Prop :=
  exists evs, log w = log w0 ++ evs /\ entered evs = fs /\
              PrintBundleReady ∉ evs.

(** The error categories of the specification, and the function that
    raises each of them. *)
Inductive category : Type :=
| ExtractionError | MissingAIAError | DownloadError | ConversionError
| VerificationFailedError.

Definition raised_in (c : category) : func :=
  match c with
  | ExtractionError => f_fetch_leaf_cert
  | MissingAIAError => f_extract_aia_issuer_url
  | DownloadError => f_download_issuer
  | ConversionError => f_issuer_to_pem
  | VerificationFailedError => f_verify_bundle
  end.

(** The category a message of a [RuntimeError] stands for: four fixed
    sentences, and one heading followed by the client's last lines. *)
Definition category_of_message (msg : str) : option category :=
  if decide (msg = MSG_EXTRACT) then Some ExtractionError
  else if decide (msg = MSG_NO_AIA) then Some MissingAIAError
  else if decide (msg = MSG_DOWNLOAD) then Some DownloadError
  else if decide (msg = MSG_CONVERT) then Some ConversionError
  else if starts_with MSG_VERIFY msg then Some VerificationFailedError
  else None.

(** The [k]-th function of [main], started in [wb], ends with the
    exception [e] in [w']. *)
Definition stage_fails (env : Env) (k : nat) (wb : world) (e : exn)
    (w' : world) : Prop :=
  match k with
  | 1%nat => fetch_leaf_cert env wb = (Raise e, w')
  | 2%nat => extract_aia_issuer_url env wb = (Raise e, w')
  | 3%nat => exists url, download_issuer env url wb = (Raise e, w')
  | 4%nat => issuer_to_pem env wb = (Raise e, w')
  | 5%nat => build_bundle env wb = (Raise e, w')
  | 6%nat => verify_bundle env wb = (Raise e, w')
  | _ => False
  end.

(** The number of certificate blocks opened in [text]: the places where
    the begin marker stands. *)
Fixpoint begin_markers (text : list N) : nat :=
  match text with
  | [] => 0
  | _ :: t =>
      ((if starts_with BEGIN_CERTIFICATE text then 1 else 0)
       + begin_markers t)%nat
  end.

(** The shape C1 claims for the bundle: the bytes of the root store, the
    separating newline, and a remainder that holds exactly one
    certificate block. *)
Definition claimed_bundle_shape (roots bundle : bytes) : Prop :=
  exists block,
    bundle = roots ++ [NL] ++ block /\ begin_markers block = 1%nat.

(** Every file of [d] still exists in [d'] (with any content). *)
Definition keeps_files (d d' : files) : Prop :=
  forall p, is_Some (lookup_file p d) -> is_Some (lookup_file p d').

(** The command each function runs: one each, and none for the builder
    (the normalizer runs its command in the DER branch only). *)
Definition runs (f : func) (c : command) : bool :=
  match f, c with
  | f_fetch_leaf_cert, openssl_s_client_showcerts => true
  | f_extract_aia_issuer_url, openssl_x509_text => true
  | f_download_issuer, curl_L_o _ => true
  | f_issuer_to_pem, openssl_x509_inform_DER => true
  | f_verify_bundle, openssl_s_client_CAfile => true
  | _, _ => false
  end.

(** What one call of [f] adds to the log: its entry, followed by at most
    one command, which is the command of [f]. *)
Definition call_trace (f : func) (evs : list event) : Prop :=
  evs = [Enter f] \/ exists c, runs f c = true /\ evs = [Enter f; Exec c].

(** From [w0] to [w] the log grew by the calls of the functions [fs], one
    after the other, and by nothing else. *)
Definition called_since (w0 : world) (fs : list func) (w : world) : Prop :=
  exists segs, log w = log w0 ++ concat segs /\ Forall2 call_trace fs segs.

(** A run of [main] from [w] stops in its [k]-th function: the functions
    before it have returned, one after the other, each started where the
    one before ended (the issuer fetcher with the URL the locator
    returned), and the [k]-th one ends with the exception [e] in [w']. *)
Definition stops_in (env : Env) (k : nat) (w : world) (e : exn)
    (w' : world) : Prop :=
  match k with
  | 1%nat => fetch_leaf_cert env w = (Raise e, w')
  | 2%nat =>
      exists w1,
        fetch_leaf_cert env w = (Return tt, w1) /\
        extract_aia_issuer_url env w1 = (Raise e, w')
  | 3%nat =>
      exists w1 url w2,
        fetch_leaf_cert env w = (Return tt, w1) /\
        extract_aia_issuer_url env w1 = (Return url, w2) /\
        download_issuer env url w2 = (Raise e, w')
  | 4%nat =>
      exists w1 url w2 w3,
        fetch_leaf_cert env w = (Return tt, w1) /\
        extract_aia_issuer_url env w1 = (Return url, w2) /\
        download_issuer env url w2 = (Return tt, w3) /\
        issuer_to_pem env w3 = (Raise e, w')
  | 5%nat =>
      exists w1 url w2 w3 w4,
        fetch_leaf_cert env w = (Return tt, w1) /\
        extract_aia_issuer_url env w1 = (Return url, w2) /\
        download_issuer env url w2 = (Return tt, w3) /\
        issuer_to_pem env w3 = (Return tt, w4) /\
        build_bundle env w4 = (Raise e, w')
  | 6%nat =>
      exists w1 url w2 w3 w4 w5,
        fetch_leaf_cert env w = (Return tt, w1) /\
        extract_aia_issuer_url env w1 = (Return url, w2) /\
        download_issuer env url w2 = (Return tt, w3) /\
        issuer_to_pem env w3 = (Return tt, w4) /\
        build_bundle env w4 = (Return tt, w5) /\
        verify_bundle env w5 = (Raise e, w')
  | _ => False
  end.

(** The order in which [main] calls the functions. *)
Definition call_order : list func :=
  [f_fetch_leaf_cert; f_extract_aia_issuer_url; f_download_issuer;
   f_issuer_to_pem; f_build_bundle; f_verify_bundle].

(** The working directory after a process that may have written [p]. *)
Definition saved_disk (p : path) (saved : option bytes) (d : files) : files :=
  match saved with
  | Some b => store_file p b d
  | None => d
  end.

(** The world after a function has been entered, and after it has also
    run a command that left the working directory as [d]. *)
Definition entered_world (f : func) (w : world) : world :=
  World (disk w) (log w ++ [Enter f]).

Definition ran_world (f : func) (c : command) (d : files) (w : world)
  : world :=
  World d (log w ++ [Enter f; Exec c]).

(** What [curl -L url -o FILE] does with the final answer of the server
    (after redirects).  The script does not pass [--fail], so that an HTTP
    error status is no error for [curl]: it saves the body it received and
    exits with 0.  Only a transfer that cannot take place (no connection,
    no name resolution) ends with a non-zero status, here 7, and no file. *)
Inductive http_outcome : Type :=
| CouldNotConnect
| Response (status : N) (body : bytes).

Definition curl_L_o_result (h : http_outcome) : Z * option bytes :=
  match h with
  | CouldNotConnect => (7%Z, None)
  | Response _ body => (0%Z, Some body)
  end.

(** [p] occurs in [text] at one of the positions [0 .. n-1]. *)
Definition occurs_before (p text : list N) (n : nat) : bool :=
  existsb (fun i => starts_with p (drop i text)) (seq 0 n).

(** ** A sample run

    A host that presents two certificates, a leaf whose dump names one
    issuer URL, an issuer served as PEM, a one-certificate root store and
    a client that accepts the bundle. *)

Definition new_world : world := World (Files None None None None) [].

Definition sample_leaf : str :=
  BEGIN_CERTIFICATE ++ [NL] ++ lit "MIIBszCCAVmgAwIBAgIUTGVhZg=="
  ++ [NL] ++ END_CERTIFICATE.

Definition sample_showcerts_pre : str :=
  lit "CONNECTED(00000003)" ++ [NL] ++ lit "---" ++ [NL]
  ++ lit "Certificate chain" ++ [NL]
  ++ lit " 0 s:CN = www.example.test" ++ [NL].

Definition sample_showcerts_post : str :=
  [NL] ++ lit " 1 s:CN = Example Intermediate CA" ++ [NL]
  ++ BEGIN_CERTIFICATE ++ [NL] ++ lit "MIIBszCCAVmgAwIBAgIUSW50ZXI="
  ++ [NL] ++ END_CERTIFICATE ++ [NL] ++ lit "---" ++ [NL].

Definition sample_showcerts : str :=
  sample_showcerts_pre ++ sample_leaf ++ sample_showcerts_post.

Definition sample_dump_pre : str :=
  lit "        X509v3 extensions:" ++ [NL]
  ++ lit "            Authority Information Access: " ++ [NL]
  ++ lit "                OCSP - URI:http://ocsp.example.test" ++ [NL]
  ++ lit "                ".

Definition sample_url : str := lit "http://example.test/issuer.crt".

Definition sample_dump_post : str :=
  [NL] ++ lit "            X509v3 Basic Constraints: critical" ++ [NL].

(** A dump with the line
    [CA Issuers - URI:http://example.test/issuer.crt]. *)
Definition sample_dump : str :=
  sample_dump_pre ++ CA_ISSUERS_URI ++ sample_url ++ sample_dump_post.

(** The same dump for a certificate without the CA Issuers entry. *)
Definition sample_dump_no_aia : str := sample_dump_pre ++ sample_dump_post.

Definition sample_issuer : bytes :=
  BEGIN_CERTIFICATE ++ [NL] ++ repeat 65 200 ++ [NL]
  ++ END_CERTIFICATE ++ [NL].

Definition sample_roots : bytes :=
  BEGIN_CERTIFICATE ++ [NL] ++ lit "MIIBszCCAVmgAwIBAgIUUm9vdA=="
  ++ [NL] ++ END_CERTIFICATE ++ [NL].

Definition sample_verified : completed :=
  Completed 0
    (lit "    Verify return code: 0 (ok)" ++ [NL] ++ lit "---" ++ [NL])
    (lit "DONE" ++ [NL]).

Definition sample_x509_text (dump : str) (leaf : option bytes) : completed :=
  match leaf with
  | Some _ => Completed 0 dump []
  | None => Completed 1 [] (lit "Could not open file or uri")
  end.

Definition sample_env : Env := {|
  s_client_showcerts := Completed 0 sample_showcerts [];
  x509_text := sample_x509_text sample_dump;
  curl := fun _ => (0%Z, Some sample_issuer);
  x509_inform_DER := fun _ => (1%Z, None);
  s_client_CAfile := fun _ => sample_verified;
  certifi_where := Some sample_roots
|}.

(** The world after the leaf fetcher of the sample run. *)
Definition sample_world_1 : world := snd (fetch_leaf_cert sample_env new_world).

(** The same host with a leaf certificate that names no issuer URL. *)
Definition env_no_aia : Env := {|
  s_client_showcerts := s_client_showcerts sample_env;
  x509_text := sample_x509_text sample_dump_no_aia;
  curl := curl sample_env;
  x509_inform_DER := x509_inform_DER sample_env;
  s_client_CAfile := s_client_CAfile sample_env;
  certifi_where := certifi_where sample_env
|}.

(** A host that refuses the connection: [openssl s_client] prints its
    complaint on the error stream and exits with status 1. *)
Definition env_refused : Env := {|
  s_client_showcerts := Completed 1 [] (lit "connect:errno=111" ++ [NL]);
  x509_text := x509_text sample_env;
  curl := curl sample_env;
  x509_inform_DER := x509_inform_DER sample_env;
  s_client_CAfile := s_client_CAfile sample_env;
  certifi_where := certifi_where sample_env
|}.

(** A verifying client that reports success, then goes on printing: the
    success line is the sixth line from the end of what the verifier
    reads (standard output, a newline, standard error). *)
Definition chatty_success : completed :=
  Completed 0
    (lit "    Verify return code: 0 (ok)" ++ [NL]
     ++ lit "    Extended master secret: no" ++ [NL]
     ++ lit "    Max Early Data: 0" ++ [NL]
     ++ lit "---" ++ [NL])
    (lit "depth=1 CN = Example Intermediate CA" ++ [NL]
     ++ lit "verify return:1" ++ [NL]
     ++ lit "depth=0 CN = www.example.test" ++ [NL]
     ++ lit "verify return:1" ++ [NL]
     ++ lit "DONE" ++ [NL]).

Definition chatty_last_lines : str :=
  lit "depth=1 CN = Example Intermediate CA" ++ [NL]
  ++ lit "verify return:1" ++ [NL]
  ++ lit "depth=0 CN = www.example.test" ++ [NL]
  ++ lit "verify return:1" ++ [NL]
  ++ lit "DONE".

Definition env_chatty : Env := {|
  s_client_showcerts := s_client_showcerts sample_env;
  x509_text := x509_text sample_env;
  curl := curl sample_env;
  x509_inform_DER := x509_inform_DER sample_env;
  s_client_CAfile := fun _ => chatty_success;
  certifi_where := certifi_where sample_env
|}.

(** A verifying client that rejects the chain. *)
Definition rejected : completed :=
  Completed 1
    (lit "    Verify return code: 20 (unable to get local issuer certificate)"
     ++ [NL] ++ lit "---" ++ [NL])
    (lit "verify error:num=20:unable to get local issuer certificate"
     ++ [NL]).

Definition env_rejected : Env := {|
  s_client_showcerts := s_client_showcerts sample_env;
  x509_text := x509_text sample_env;
  curl := curl sample_env;
  x509_inform_DER := x509_inform_DER sample_env;
  s_client_CAfile := fun _ => rejected;
  certifi_where := certifi_where sample_env
|}.

(** An issuer URL that answers 404 with an error page of 234 bytes, and
    one that answers 404 with a body of 9 bytes. *)
Definition page_404 : bytes :=
  lit "<!DOCTYPE html>" ++ [NL]
  ++ lit "<html><head>" ++ [NL]
  ++ lit "<title>404 Not Found</title>" ++ [NL]
  ++ lit "</head><body>" ++ [NL]
  ++ lit "<h1>Not Found</h1>" ++ [NL]
  ++ lit "<p>The requested URL /issuer.crt was not found on this server.</p>"
  ++ [NL]
  ++ lit "<hr><address>Apache Server at example.test Port 80</address>"
  ++ [NL] ++ lit "</body></html>" ++ [NL].

Definition env_404_page : Env := {|
  s_client_showcerts := s_client_showcerts sample_env;
  x509_text := x509_text sample_env;
  curl := fun _ => curl_L_o_result (Response 404 page_404);
  x509_inform_DER := x509_inform_DER sample_env;
  s_client_CAfile := s_client_CAfile sample_env;
  certifi_where := certifi_where sample_env
|}.

Definition env_404_short : Env := {|
  s_client_showcerts := s_client_showcerts sample_env;
  x509_text := x509_text sample_env;
  curl := fun _ => curl_L_o_result (Response 404 (lit "Not Found"));
  x509_inform_DER := x509_inform_DER sample_env;
  s_client_CAfile := s_client_CAfile sample_env;
  certifi_where := certifi_where sample_env
|}.

(** A host that completes the handshake without presenting a
    certificate. *)
Definition env_no_cert : Env := {|
  s_client_showcerts :=
    Completed 0 (lit "CONNECTED(00000003)" ++ [NL] ++ lit "---" ++ [NL]
                 ++ lit "no peer certificate available" ++ [NL]) [];
  x509_text := x509_text sample_env;
  curl := curl sample_env;
  x509_inform_DER := x509_inform_DER sample_env;
  s_client_CAfile := s_client_CAfile sample_env;
  certifi_where := certifi_where sample_env
|}.

(** An issuer served in a binary form that the converter accepts without
    writing its output file. *)
Definition env_no_pem_written : Env := {|
  s_client_showcerts := s_client_showcerts sample_env;
  x509_text := x509_text sample_env;
  curl := fun _ => (0%Z, Some (repeat 48 300));
  x509_inform_DER := fun _ => (0%Z, None);
  s_client_CAfile := s_client_CAfile sample_env;
  certifi_where := certifi_where sample_env
|}.

(** A run that fails in the function of each category. *)
Definition env_failing (c : category) : Env :=
  match c with
  | ExtractionError => env_no_cert
  | MissingAIAError => env_no_aia
  | DownloadError => env_404_short
  | ConversionError => env_no_pem_written
  | VerificationFailedError => env_rejected
  end.

(** An issuer URL that serves a PEM file with two certificates (the
    issuer and a cross-signed variant of it). *)
Definition sample_chain : bytes :=
  sample_issuer
  ++ BEGIN_CERTIFICATE ++ [NL] ++ repeat 66 200 ++ [NL]
  ++ END_CERTIFICATE ++ [NL].

Definition env_chain : Env := {|
  s_client_showcerts := s_client_showcerts sample_env;
  x509_text := x509_text sample_env;
  curl := fun _ => (0%Z, Some sample_chain);
  x509_inform_DER := x509_inform_DER sample_env;
  s_client_CAfile := s_client_CAfile sample_env;
  certifi_where := certifi_where sample_env
|}.

(** A root store whose lines end with carriage return and newline. *)
Definition crlf_roots : bytes :=
  BEGIN_CERTIFICATE ++ [CR; NL] ++ lit "MIIBszCCAVmgAwIBAgIUUm9vdA=="
  ++ [CR; NL] ++ END_CERTIFICATE ++ [CR; NL].

Definition env_crlf : Env := {|
  s_client_showcerts := s_client_showcerts sample_env;
  x509_text := x509_text sample_env;
  curl := curl sample_env;
  x509_inform_DER := x509_inform_DER sample_env;
  s_client_CAfile := s_client_CAfile sample_env;
  certifi_where := Some crlf_roots
|}.

(** A working directory in which only the normalized issuer exists. *)
Definition world_with_issuer_pem : world :=
  World (Files None None (Some sample_issuer) None) [].

(** A PEM download with a Latin-1 comment line in front of the
    certificate: the byte 233 is not UTF-8 here. *)
Definition latin1_issuer : bytes :=
  lit "# Autorit" ++ [233] ++ lit " de certification" ++ [NL]
  ++ sample_issuer.

Definition world_with_latin1_issuer : world :=
  World (Files None (Some latin1_issuer) None None) [].

(** A working directory in which only the downloaded issuer exists. *)
Definition world_with_issuer : world :=
  World (Files None (Some sample_issuer) None None) [].

(** * Properties *)

(** Running monadic code: unfold the combinators and reduce what the
    state already decides, leaving the texts of the script folded. *)
Ltac run_step :=
  unfold bind, emit, stat, run, check_returncode, ret, raise, write_bytes,
    save_output, read_bytes, read_bytes_of, read_text, read_text_of;
  cbn [disk log lookup_file store_file returncode stdout stderr fst snd
       leaf_pem issuer_bin issuer_pem bundle_pem Z.eqb].

Ltac run_code := repeat (progress run_step).

(** ** The log of a run *)

Lemma entered_app (l k : list event) :
  entered (l ++ k) = entered l ++ entered k.
Proof.
  induction l as [|e l IH]; [reflexivity|].
  destruct e; simpl; rewrite IH; reflexivity.
Qed.

Lemma executed_app (l k : list event) :
  executed (l ++ k) = executed l ++ executed k.
Proof.
  induction l as [|e l IH]; [reflexivity|].
  destruct e; simpl; rewrite IH; reflexivity.
Qed.

(** ** Searching in text *)

Lemma starts_with_spec (p s : list N) :
  starts_with p s = true <-> exists r, s = p ++ r.
Proof.
  revert s; induction p as [|a p IH]; intros [|b s]; simpl.
  - split; [exists []; reflexivity | reflexivity].
  - split; [exists (b :: s); reflexivity | reflexivity].
  - split; [discriminate | intros [r Hr]; discriminate].
  - rewrite andb_true_iff, N.eqb_eq, IH. split.
    + intros [-> [r ->]]. exists r; reflexivity.
    + intros [r Hr]. injection Hr as -> ->. split; [reflexivity | eauto].
Qed.

Lemma starts_with_app (p r : list N) : starts_with p (p ++ r) = true.
Proof. apply starts_with_spec; eauto. Qed.

Lemma contains_spec (needle hay : list N) :
  contains needle hay = true <-> exists pre post, hay = pre ++ needle ++ post.
Proof.
  induction hay as [|c t IH]; simpl.
  - rewrite orb_false_r, starts_with_spec. split.
    + intros [r Hr]. exists [], r. exact Hr.
    + intros (pre & post & H). destruct pre; [eauto|discriminate].
  - rewrite orb_true_iff, starts_with_spec, IH. split.
    + intros [[r Hr] | (pre & post & ->)].
      * exists [], r. exact Hr.
      * exists (c :: pre), post. reflexivity.
    + intros (pre & post & H). destruct pre as [|c' pre]; simpl in H.
      * left; eauto.
      * injection H as -> ->. right; eauto.
Qed.

Lemma contains_false (needle hay : list N) :
  contains needle hay = false <->
  forall pre post, hay <> pre ++ needle ++ post.
Proof.
  rewrite <- not_true_iff_false, contains_spec. split.
  - intros H pre post E. apply H; eauto.
  - intros H (pre & post & E). exact (H _ _ E).
Qed.

(** The first success of [re_search] is at the leftmost position where
    the pattern matches. *)
Lemma re_search_Some {A : Type} (at_pos : str -> option A) (s : str) (r : A) :
  re_search at_pos s = Some r <->
  exists pre suf, s = pre ++ suf /\ at_pos suf = Some r /\
    forall pre' suf', s = pre' ++ suf' -> (length pre' < length pre)%nat ->
                      at_pos suf' = None.
Proof.
  induction s as [|c t IH]; simpl.
  - destruct (at_pos []) as [r'|] eqn:E.
    + split.
      * intros [= ->]. exists [], []. repeat split; [exact E|].
        simpl; intros; lia.
      * intros (pre & suf & H & Hr & _).
        symmetry in H; apply app_eq_nil in H as [-> ->]. congruence.
    + split; [discriminate|].
      intros (pre & suf & H & Hr & _).
      symmetry in H; apply app_eq_nil in H as [-> ->]. congruence.
  - destruct (at_pos (c :: t)) as [r'|] eqn:E.
    + split.
      * intros [= ->]. exists [], (c :: t). repeat split; [exact E|].
        simpl; intros; lia.
      * intros (pre & suf & H & Hr & Hmin). destruct pre as [|c' pre].
        -- simpl in H; subst suf. congruence.
        -- specialize (Hmin [] (c :: t) eq_refl). simpl in Hmin.
           rewrite Hmin in E by lia. discriminate.
    + rewrite IH. split.
      * intros (pre & suf & -> & Hr & Hmin). exists (c :: pre), suf.
        repeat split; [exact Hr|]. intros [|c' pre'] suf' H Hlen.
        -- simpl in H; subst suf'. exact E.
        -- simpl in H; injection H as -> H. apply (Hmin pre' suf' H).
           simpl in Hlen; lia.
      * intros (pre & suf & H & Hr & Hmin). destruct pre as [|c' pre].
        -- simpl in H; subst suf. congruence.
        -- simpl in H; injection H as -> ->. exists pre, suf.
           repeat split; [exact Hr|]. intros pre' suf' H Hlen.
           apply (Hmin (c' :: pre') suf'); [rewrite H; reflexivity|].
           simpl; lia.
Qed.

Lemma re_search_None {A : Type} (at_pos : str -> option A) (s : str) :
  re_search at_pos s = None <->
  forall pre suf, s = pre ++ suf -> at_pos suf = None.
Proof.
  induction s as [|c t IH]; simpl.
  - destruct (at_pos []) eqn:E.
    + split; [discriminate|]. intros H. rewrite (H [] []) in E; done.
    + split; [|reflexivity]. intros _ pre suf H.
      symmetry in H; apply app_eq_nil in H as [-> ->]. exact E.
  - destruct (at_pos (c :: t)) eqn:E.
    + split; [discriminate|]. intros H. rewrite (H [] (c :: t)) in E; done.
    + rewrite IH. split.
      * intros H [|c' pre] suf Hs.
        -- simpl in Hs; subst suf. exact E.
        -- simpl in Hs; injection Hs as -> Hs. exact (H _ _ Hs).
      * intros H pre suf ->. apply (H (c :: pre) suf). reflexivity.
Qed.

Lemma take_while_app (p : char -> bool) (u rest : str) :
  Forall (fun c => p c = true) u ->
  match rest with [] => True | c :: _ => p c = false end ->
  take_while p (u ++ rest) = u.
Proof.
  intros Hu Hrest. induction Hu as [|c u Hc _ IH]; simpl.
  - destruct rest as [|c r]; [reflexivity|]. simpl. rewrite Hrest. reflexivity.
  - rewrite Hc, IH. reflexivity.
Qed.

Lemma take_while_Forall (p : char -> bool) (s : str) :
  Forall (fun c => p c = true) (take_while p s).
Proof.
  induction s as [|c t IH]; simpl; [constructor|].
  destruct (p c) eqn:E; constructor; assumption.
Qed.

Lemma drop_length_app {A : Type} (l k : list A) : drop (length l) (l ++ k) = k.
Proof. induction l; simpl; auto. Qed.

Lemma take_drop_while (p : char -> bool) (s : str) :
  s = take_while p s ++ drop_while p s.
Proof.
  induction s as [|c t IH]; simpl; [reflexivity|].
  destruct (p c); simpl; congruence.
Qed.

(** Where the pattern of the locator matches: the label, then at least
    one non-blank character. *)
Lemma match_ca_issuers_Some (s g : str) :
  match_ca_issuers s = Some g ->
  exists c g' rest, g = c :: g' /\ is_space c = false /\
                    s = CA_ISSUERS_URI ++ g ++ rest.
Proof.
  unfold match_ca_issuers.
  destruct (starts_with CA_ISSUERS_URI s) eqn:E; [|discriminate].
  apply starts_with_spec in E as [r ->]. rewrite drop_length_app.
  destruct (take_while non_space r) as [|c g'] eqn:Eg; [discriminate|].
  intros [= <-]. exists c, g', (drop_while non_space r). repeat split.
  - pose proof (take_while_Forall non_space r) as HF. rewrite Eg in HF.
    inversion HF as [|? ? Hc _]. unfold non_space in Hc.
    destruct (is_space c); [discriminate | reflexivity].
  - rewrite <- Eg, app_assoc, <- app_assoc.
    f_equal. apply take_drop_while.
Qed.

Lemma match_ca_issuers_here (url rest : str) :
  url <> [] ->
  Forall (fun c => is_space c = false) url ->
  match rest with [] => True | c :: _ => is_space c = true end ->
  match_ca_issuers (CA_ISSUERS_URI ++ url ++ rest) = Some url.
Proof.
  intros Hne Hurl Hrest. unfold match_ca_issuers.
  rewrite starts_with_app, drop_length_app, take_while_app.
  - destruct url; [contradiction | reflexivity].
  - eapply Forall_impl; [exact Hurl|]. intros c Hc. unfold non_space.
    rewrite Hc. reflexivity.
  - destruct rest as [|c r]; [exact I|]. unfold non_space.
    rewrite Hrest. reflexivity.
Qed.

(** No occurrence of the words [CA Issuers]: the pattern matches nowhere. *)
Lemma no_ca_issuers_no_match (text : str) :
  contains (lit "CA Issuers") text = false ->
  re_search match_ca_issuers text = None.
Proof.
  intros H. apply re_search_None. intros pre suf ->.
  destruct (match_ca_issuers suf) as [g|] eqn:E; [|reflexivity].
  apply match_ca_issuers_Some in E as (c & g' & rest & _ & _ & ->).
  exfalso. rewrite contains_false in H.
  apply (H pre (lit " - URI:" ++ g ++ rest)). reflexivity.
Qed.

(** ** The issuer locator *)

(** C5: when [openssl x509 -text] prints a dump in which the label
    [CA Issuers - URI:] is followed by the non-blank run [url] (ended by
    white space or by the end of the dump), and no earlier occurrence of
    the label is followed by a non-blank character, the locator returns
    exactly [url]: the first CA Issuers URI of the dump.  The line
    [CA Issuers - URI:http://example.test/issuer.crt] is the instance
    checked below. *)
Theorem extract_aia_issuer_url_first_uri
    (env : Env) (w : world) (pre url rest err : str) :
  x509_text env (leaf_pem (disk w))
    = Completed 0 (pre ++ CA_ISSUERS_URI ++ url ++ rest) err ->
  url <> [] ->
  Forall (fun c => is_space c = false) url ->
  match rest with [] => True | c :: _ => is_space c = true end ->
  (forall pre' c post',
      pre ++ CA_ISSUERS_URI ++ url ++ rest
        = pre' ++ CA_ISSUERS_URI ++ c :: post' ->
      is_space c = false -> (length pre <= length pre')%nat) ->
  extract_aia_issuer_url env w
    = (Return url,
       World (disk w)
             (log w ++ [Enter f_extract_aia_issuer_url;
                        Exec openssl_x509_text])).
Proof.
  intros Hrun Hne Hurl Hrest Hfirst.
  assert (re_search match_ca_issuers (pre ++ CA_ISSUERS_URI ++ url ++ rest)
          = Some url) as Hs.
  { apply re_search_Some. exists pre, (CA_ISSUERS_URI ++ url ++ rest).
    split; [reflexivity|]. split; [apply match_ca_issuers_here; assumption|].
    intros pre' suf' Heq Hlen.
    destruct (match_ca_issuers suf') as [g|] eqn:E; [|reflexivity].
    apply match_ca_issuers_Some in E as (c & g' & r & -> & Hc & ->).
    simpl in Heq. specialize (Hfirst pre' c (g' ++ r) Heq Hc). lia. }
  unfold extract_aia_issuer_url. run_code. rewrite Hrun. run_code.
  rewrite Hs, <- app_assoc. reflexivity.
Qed.

(** C6: when [openssl x509 -text] prints a dump without the words
    [CA Issuers], the locator raises its [RuntimeError] (the error the
    specification calls MissingAIAError); a run of [main] that got past
    the leaf fetcher ends with that error right after the locator's
    command, so that no later function is entered and no later command
    is run. *)
Theorem missing_aia_stops_the_run
    (env : Env) (w w1 : world) (text err : str) :
  fetch_leaf_cert env w = (Return tt, w1) ->
  x509_text env (leaf_pem (disk w1)) = Completed 0 text err ->
  contains (lit "CA Issuers") text = false ->
  let w2 :=
    World (disk w1)
          (log w1 ++ [Enter f_extract_aia_issuer_url;
                      Exec openssl_x509_text]) in
  extract_aia_issuer_url env w1 = (Raise (RuntimeError MSG_NO_AIA), w2) /\
  main env w = (Raise (RuntimeError MSG_NO_AIA), w2).
Proof.
  intros Hfetch Hrun Hno w2.
  assert (extract_aia_issuer_url env w1
          = (Raise (RuntimeError MSG_NO_AIA), w2)) as Hloc.
  { unfold extract_aia_issuer_url. run_code. rewrite Hrun. run_code.
    rewrite (no_ca_issuers_no_match _ Hno), <- app_assoc. reflexivity. }
  split; [exact Hloc|].
  unfold main, bind at 1. rewrite Hfetch.
  unfold bind at 1. rewrite Hloc. reflexivity.
Qed.

(** ** The issuer normalizer *)

(** C4: when the downloaded bytes contain the PEM begin marker (at their
    start, [pre = []], or anywhere), the normalizer writes exactly these
    bytes as the issuer PEM artifact and returns; it enters no
    sub-process, the DER-to-PEM conversion in particular is not run. *)
Theorem issuer_to_pem_identity_on_pem
    (env : Env) (w : world) (data pre post : bytes) :
  issuer_bin (disk w) = Some data ->
  data = pre ++ BEGIN_CERTIFICATE ++ post ->
  issuer_to_pem env w
    = (Return tt,
       World (store_file ISSUER_PEM data (disk w))
             (log w ++ [Enter f_issuer_to_pem])) /\
  issuer_pem (disk (snd (issuer_to_pem env w))) = Some data /\
  executed (log (snd (issuer_to_pem env w))) = executed (log w).
Proof.
  intros Hbin Hdata.
  assert (contains BEGIN_CERTIFICATE data = true) as Hc
    by (apply contains_spec; eauto).
  assert (issuer_to_pem env w
          = (Return tt,
             World (store_file ISSUER_PEM data (disk w))
                   (log w ++ [Enter f_issuer_to_pem]))) as Hrun.
  { unfold issuer_to_pem. run_code. rewrite Hbin. run_code.
    rewrite Hc. run_code. rewrite ?Hbin. reflexivity. }
  split; [exact Hrun|]. rewrite Hrun. cbn [snd disk log]. split.
  - reflexivity.
  - rewrite executed_app, app_nil_r. reflexivity.
Qed.

(** ** The leaf fetcher *)

Lemma lazy_until_Some (stop s body : str) :
  lazy_until stop s = Some body <->
  exists post, s = body ++ stop ++ post /\
    forall body' post', s = body' ++ stop ++ post' ->
                        (length body <= length body')%nat.
Proof.
  revert body; induction s as [|c t IH]; intros body; simpl;
    destruct (starts_with stop _) eqn:E.
  - apply starts_with_spec in E as [r Hr]. split.
    + intros [= <-]. exists r. split; [exact Hr|]. simpl; intros; lia.
    + intros (post & H & _). symmetry in H.
      apply app_eq_nil in H as [-> _]. reflexivity.
  - split; [discriminate|]. intros (post & H & _). symmetry in H.
    apply app_eq_nil in H as [-> H]. apply app_eq_nil in H as [-> _].
    discriminate.
  - apply starts_with_spec in E as [r Hr]. split.
    + intros [= <-]. exists r. split; [exact Hr|]. simpl; intros; lia.
    + intros (post & _ & Hmin). specialize (Hmin [] r Hr).
      destruct body; [reflexivity | simpl in Hmin; lia].
  - destruct (lazy_until stop t) as [b|] eqn:El; simpl.
    + destruct (proj1 (IH b) eq_refl) as (post & -> & Hmin). split.
      * intros [= <-]. exists post. split; [reflexivity|].
        intros [|c' body'] post' H.
        -- simpl in H. rewrite H, starts_with_app in E. discriminate.
        -- simpl in H; injection H as -> H. simpl.
           specialize (Hmin _ _ H). lia.
      * intros (post' & H & Hmin'). destruct body as [|c' body].
        -- simpl in H. rewrite H, starts_with_app in E. discriminate.
        -- simpl in H; injection H as -> H. f_equal. f_equal.
           assert (length b = length body) as Hlen.
           { specialize (Hmin _ _ H).
             specialize (Hmin' (c' :: b) post eq_refl). simpl in Hmin'. lia. }
           apply (f_equal (take (length b))) in H.
           rewrite take_app_length in H. rewrite Hlen in H.
           rewrite take_app_length in H. exact H.
    + split; [discriminate|]. intros (post & H & Hmin).
      destruct body as [|c' body].
      * simpl in H. rewrite H, starts_with_app in E. discriminate.
      * simpl in H; injection H as -> H. exfalso.
        assert (@None str = Some body) as Hs; [|discriminate].
        apply IH. exists post. split; [exact H|].
        intros body' post' H'. specialize (Hmin (c' :: body') post').
        simpl in Hmin. rewrite H' in Hmin. specialize (Hmin eq_refl). lia.
Qed.

Lemma lazy_until_unfold (stop s : str) :
  lazy_until stop s =
  if starts_with stop s then Some []
  else match s with
       | [] => None
       | c :: t => option_map (cons c) (lazy_until stop t)
       end.
Proof. destruct s; reflexivity. Qed.

Lemma lazy_until_None (stop s : str) :
  lazy_until stop s = None <->
  forall body post, s <> body ++ stop ++ post.
Proof.
  split.
  - intros H body post Hs.
    assert (exists b, lazy_until stop s = Some b) as [b Hb]; [|congruence].
    clear H. revert s Hs. induction body as [|c body IH]; intros s ->.
    + rewrite lazy_until_unfold. simpl. rewrite starts_with_app. eauto.
    + rewrite lazy_until_unfold. simpl. destruct (starts_with stop _); [eauto|].
      destruct (IH _ eq_refl) as [b ->]. simpl; eauto.
  - intros H. destruct (lazy_until stop s) as [b|] eqn:E; [|reflexivity].
    apply lazy_until_Some in E as (post & Hs & _). destruct (H _ _ Hs).
Qed.

Lemma match_pem_block_Some (s g : str) :
  match_pem_block s = Some g <->
  exists body post,
    s = BEGIN_CERTIFICATE ++ body ++ END_CERTIFICATE ++ post /\
    g = BEGIN_CERTIFICATE ++ body ++ END_CERTIFICATE /\
    forall body' post',
      s = BEGIN_CERTIFICATE ++ body' ++ END_CERTIFICATE ++ post' ->
      (length body <= length body')%nat.
Proof.
  unfold match_pem_block.
  destruct (starts_with BEGIN_CERTIFICATE s) eqn:E.
  - apply starts_with_spec in E as [r ->]. rewrite drop_length_app.
    destruct (lazy_until END_CERTIFICATE r) as [b|] eqn:El.
    + apply lazy_until_Some in El as (post & -> & Hmin). split.
      * intros [= <-]. exists b, post. repeat split.
        intros body' post' H. apply app_inv_head in H. eauto.
      * intros (body & post' & H & -> & Hmin'). apply app_inv_head in H.
        assert (length b = length body) as Hlen.
        { specialize (Hmin _ _ H).
          specialize (Hmin' b post eq_refl). lia. }
        apply (f_equal (take (length b))) in H.
        rewrite take_app_length in H. rewrite Hlen in H.
        rewrite take_app_length in H. subst b. reflexivity.
    + split; [discriminate|]. intros (body & post & H & _).
      apply app_inv_head in H. rewrite lazy_until_None in El.
      destruct (El _ _ H).
  - split; [discriminate|]. intros (body & post & H & _).
    rewrite H, starts_with_app in E. discriminate.
Qed.

Lemma match_pem_block_None (s : str) :
  match_pem_block s = None <->
  forall body post,
    s <> BEGIN_CERTIFICATE ++ body ++ END_CERTIFICATE ++ post.
Proof.
  split.
  - intros H body post Hs. revert H. unfold match_pem_block.
    rewrite Hs, starts_with_app, drop_length_app.
    destruct (lazy_until _ _) eqn:El; [discriminate|].
    rewrite lazy_until_None in El. destruct (El body post eq_refl).
  - intros H. destruct (match_pem_block s) as [g|] eqn:E; [|reflexivity].
    apply match_pem_block_Some in E as (body & post & Hs & _).
    destruct (H _ _ Hs).
Qed.

(** The search of the leaf fetcher fails exactly on the texts that hold
    no block, and otherwise finds the first block. *)
Lemma search_block_None (text : str) :
  re_search match_pem_block text = None <-> ~ has_block text.
Proof.
  rewrite re_search_None. split.
  - intros H (pre & body & post & Hs). specialize (H pre _ Hs).
    rewrite match_pem_block_None in H. exact (H body post eq_refl).
  - intros H pre suf ->. apply match_pem_block_None. intros body post ->.
    apply H. exists pre, body, post. reflexivity.
Qed.

Lemma search_block_first (text pre body post : str) :
  first_block text pre body post ->
  re_search match_pem_block text
    = Some (BEGIN_CERTIFICATE ++ body ++ END_CERTIFICATE).
Proof.
  intros [Hs Hmin]. apply re_search_Some.
  exists pre, (BEGIN_CERTIFICATE ++ body ++ END_CERTIFICATE ++ post).
  split; [exact Hs|]. split.
  - apply match_pem_block_Some. exists body, post. repeat split.
    intros body' post' H. rewrite H in Hs.
    destruct (Hmin _ _ _ Hs) as [_ Hb]. auto.
  - intros pre' suf' H Hlen. apply match_pem_block_None. intros b p ->.
    destruct (Hmin _ _ _ H) as [Hp _]. lia.
Qed.

Lemma no_earlier_occurrence (p text : list N) (n : nat) :
  occurs_before p text n = false ->
  forall pre post, text = pre ++ p ++ post -> (n <= length pre)%nat.
Proof.
  intros H pre post ->. destruct (decide (n <= length pre)%nat) as [|Hlt];
    [assumption | exfalso].
  enough (occurs_before p (pre ++ p ++ post) n = true) by congruence.
  apply existsb_exists. exists (length pre). split.
  - apply in_seq. lia.
  - rewrite drop_length_app. apply starts_with_app.
Qed.

(** What the leaf fetcher does once [openssl s_client] has ended; [w']
    is the world after the command. *)
Lemma fetch_leaf_cert_run (env : Env) (w : world) :
  let p := s_client_showcerts env in
  let w' := World (disk w)
                  (log w ++ [Enter f_fetch_leaf_cert;
                             Exec openssl_s_client_showcerts]) in
  fetch_leaf_cert env w =
  if Z.eqb (returncode p) 0 then
    match re_search match_pem_block (stdout p) with
    | None => (Raise (RuntimeError MSG_EXTRACT), w')
    | Some g =>
        match encode_utf8 (g ++ [NL]) with
        | Some b =>
            (Return tt, World (store_file LEAF_PEM b (disk w)) (log w'))
        | None => (Raise UnicodeEncodeError, w')
        end
    end
  else (Raise (CalledProcessError openssl_s_client_showcerts (returncode p)),
        w').
Proof.
  unfold fetch_leaf_cert. run_code. rewrite <- app_assoc. simpl app.
  destruct (Z.eqb _ 0); [|reflexivity]. run_code.
  destruct (re_search _ _); [|reflexivity].
  unfold write_text. destruct (encode_utf8 _); reflexivity.
Qed.

(** C8, as the code has it: when [openssl s_client] ends with status 0,
    the leaf fetcher writes the first PEM certificate block of its output,
    followed by a newline, as the leaf artifact, and it raises its
    [RuntimeError] (the error the specification calls ExtractionError)
    exactly when the output holds no block.  When the client ends with
    another status (a refused connection, a failed handshake), [run]
    raises [CalledProcessError] instead and nothing is written. *)
Theorem fetch_leaf_cert_spec (env : Env) (w : world) :
  let p := s_client_showcerts env in
  let w' := World (disk w)
                  (log w ++ [Enter f_fetch_leaf_cert;
                             Exec openssl_s_client_showcerts]) in
  (returncode p = 0%Z ->
     (forall pre body post b,
         first_block (stdout p) pre body post ->
         encode_utf8 (BEGIN_CERTIFICATE ++ body ++ END_CERTIFICATE ++ [NL])
           = Some b ->
         fetch_leaf_cert env w
           = (Return tt, World (store_file LEAF_PEM b (disk w)) (log w'))) /\
     (fetch_leaf_cert env w = (Raise (RuntimeError MSG_EXTRACT), w')
      <-> ~ has_block (stdout p))) /\
  (returncode p <> 0%Z ->
     fetch_leaf_cert env w
       = (Raise (CalledProcessError openssl_s_client_showcerts (returncode p)),
          w')).
Proof.
  intros p w'. rewrite fetch_leaf_cert_run. fold p. split.
  - intros ->. simpl Z.eqb. cbv iota. split.
    + intros pre body post b Hfirst Hb.
      rewrite (search_block_first _ _ _ _ Hfirst).
      rewrite <- !app_assoc. rewrite Hb. reflexivity.
    + rewrite <- search_block_None.
      destruct (re_search match_pem_block (stdout p)) as [g|].
      * split; [|discriminate]. destruct (encode_utf8 _); discriminate.
      * split; reflexivity.
  - intros Hrc. apply Z.eqb_neq in Hrc. rewrite Hrc. reflexivity.
Qed.

Lemma first_block_intro (text pre body post : str) :
  text = pre ++ BEGIN_CERTIFICATE ++ body ++ END_CERTIFICATE ++ post ->
  occurs_before BEGIN_CERTIFICATE text (length pre) = false ->
  occurs_before END_CERTIFICATE (body ++ END_CERTIFICATE ++ post)
                (length body) = false ->
  first_block text pre body post.
Proof.
  intros Htext Hb He. split; [exact Htext|].
  intros pre' body' post' H'. split.
  - exact (no_earlier_occurrence _ _ _ Hb _ _ H').
  - intros Hlen. rewrite Htext in H'.
    apply app_inj_1 in H' as [_ H']; [|exact Hlen].
    apply app_inv_head in H'.
    exact (no_earlier_occurrence _ _ _ He _ _ H').
Qed.

(** The sample run: the leaf of the two presented certificates is what
    the fetcher writes. *)
Lemma fetch_leaf_cert_sample :
  fetch_leaf_cert sample_env new_world
  = (Return tt,
     World (Files (Some (sample_leaf ++ [NL])) None None None)
           [Enter f_fetch_leaf_cert; Exec openssl_s_client_showcerts]).
Proof.
  destruct (fetch_leaf_cert_spec sample_env new_world) as [H _].
  destruct (H eq_refl) as [Hwrite _].
  apply (Hwrite sample_showcerts_pre
                ([NL] ++ lit "MIIBszCCAVmgAwIBAgIUTGVhZg==" ++ [NL])
                sample_showcerts_post).
  - apply first_block_intro; vm_compute; reflexivity.
  - vm_compute; reflexivity.
Defined.

(** C8 as stated fails on a refused connection: the captured output holds
    no certificate block, and yet the exception is not the extraction
    error but the [CalledProcessError] of [run]. *)
Lemma fetch_leaf_cert_refused_connection :
  ~ has_block (stdout (s_client_showcerts env_refused)) /\
  fetch_leaf_cert env_refused new_world
  = (Raise (CalledProcessError openssl_s_client_showcerts 1),
     World (disk new_world)
           [Enter f_fetch_leaf_cert; Exec openssl_s_client_showcerts]) /\
  fst (fetch_leaf_cert env_refused new_world)
  <> Raise (RuntimeError MSG_EXTRACT).
Proof.
  split; [|split].
  - apply search_block_None. reflexivity.
  - reflexivity.
  - discriminate.
Qed.

(** The sample dump holds the line
    [CA Issuers - URI:http://example.test/issuer.crt]: the locator returns
    [http://example.test/issuer.crt]. *)
Lemma extract_aia_issuer_url_sample :
  extract_aia_issuer_url sample_env sample_world_1
  = (Return (lit "http://example.test/issuer.crt"),
     World (disk sample_world_1)
           (log sample_world_1 ++ [Enter f_extract_aia_issuer_url;
                                   Exec openssl_x509_text])).
Proof.
  apply (extract_aia_issuer_url_first_uri sample_env sample_world_1
           sample_dump_pre sample_url sample_dump_post []).
  - reflexivity.
  - discriminate.
  - repeat constructor.
  - reflexivity.
  - intros pre' c post' H _.
    refine (no_earlier_occurrence CA_ISSUERS_URI _ _ _ _ _ H).
    vm_compute; reflexivity.
Defined.

(** A leaf without the CA Issuers entry: the run ends in the locator. *)
Lemma missing_aia_sample :
  main env_no_aia new_world
  = (Raise (RuntimeError MSG_NO_AIA),
     World (Files (Some (sample_leaf ++ [NL])) None None None)
           [Enter f_fetch_leaf_cert; Exec openssl_s_client_showcerts;
            Enter f_extract_aia_issuer_url; Exec openssl_x509_text]).
Proof.
  apply (missing_aia_stops_the_run env_no_aia new_world
           (snd (fetch_leaf_cert env_no_aia new_world))
           sample_dump_no_aia []).
  - vm_compute; reflexivity.
  - reflexivity.
  - vm_compute; reflexivity.
Defined.

(** A PEM download is copied as it is. *)
Lemma issuer_to_pem_sample :
  issuer_pem (disk (snd (issuer_to_pem sample_env world_with_issuer)))
  = Some sample_issuer.
Proof.
  apply (issuer_to_pem_identity_on_pem sample_env world_with_issuer
           sample_issuer [] ([NL] ++ repeat 65 200 ++ [NL]
                             ++ END_CERTIFICATE ++ [NL])).
  - reflexivity.
  - reflexivity.
Defined.

(** ** The verifier *)

(** A text without newline that occurs in two texts joined by a newline
    occurs in one of them. *)
Lemma contains_app_sep (X x y : str) :
  NL ∉ X ->
  contains X (x ++ NL :: y) = true ->
  contains X x = true \/ contains X y = true.
Proof.
  intros HX H. apply contains_spec in H as (pre & post & H).
  apply app_eq_inv in H as [(k & -> & H) | (k & -> & H)].
  - left. apply app_eq_inv in H as [(k' & -> & H) | (k' & -> & H)].
    + destruct k' as [|c k'].
      * apply contains_spec. exists pre, []. rewrite !app_nil_r. reflexivity.
      * injection H as <- _. exfalso. apply HX.
        apply elem_of_app. right. left.
    + apply contains_spec. exists pre, k'. rewrite app_assoc. reflexivity.
  - destruct k as [|c k].
    + destruct X as [|c X].
      * left. destruct x; reflexivity.
      * injection H as <- _. exfalso. apply HX. left.
    + injection H as _ ->. right. apply contains_spec. eauto.
Qed.

Lemma contains_join (X : str) (ls : list str) :
  X <> [] -> NL ∉ X ->
  contains X (join [NL] ls) = true ->
  exists l, l ∈ ls /\ contains X l = true.
Proof.
  intros Hne HX. induction ls as [|x ls IH]; simpl.
  - destruct X; [contradiction | discriminate].
  - destruct ls as [|y ls].
    + intros H. exists x. split; [left | exact H].
    + intros H. apply contains_app_sep in H as [H | H]; [| |exact HX].
      * exists x. split; [left | exact H].
      * destruct (IH H) as (l & Hl & Hc). exists l. split; [right|]; done.
Qed.

(** Every line [str.splitlines] returns is a piece of the text. *)
Lemma splitlines_from_infix (s cur l : str) :
  l ∈ splitlines_from cur s ->
  exists a b, reverse cur ++ s = a ++ l ++ b.
Proof.
  remember (length s) as n eqn:Hn. revert s cur Hn.
  induction n as [n IH] using lt_wf_ind. intros [|c t] cur Hn; simpl.
  - destruct cur as [|c cur]; intros H.
    + inversion H.
    + apply list_elem_of_singleton in H as ->. exists [], [].
      rewrite !app_nil_r. reflexivity.
  - simpl in Hn. destruct (is_linebreak c).
    + intros H. apply elem_of_cons in H as [-> | H].
      * exists [], (c :: t). reflexivity.
      * destruct t as [|d t']; [inversion H|].
        destruct ((c =? CR) && (d =? NL)).
        -- apply (IH (length t')) in H as (a & b & H);
             [|simpl in Hn; lia | reflexivity].
           simpl in H. exists (reverse cur ++ [c; d] ++ a), b.
           rewrite H, <- !app_assoc. reflexivity.
        -- apply (IH (length (d :: t'))) in H as (a & b & H);
             [|simpl in Hn |- *; lia | reflexivity].
           simpl in H. exists (reverse cur ++ [c] ++ a), b.
           rewrite H, <- !app_assoc. reflexivity.
    + intros H. apply (IH (length t)) in H as (a & b & H); [|lia|reflexivity].
      rewrite reverse_cons, <- app_assoc in H. exists a, b. exact H.
Qed.

Lemma strip_infix (s : str) : exists a b, s = a ++ strip s ++ b.
Proof.
  unfold strip, rstrip, lstrip.
  exists (take_while is_space s),
         (reverse (take_while is_space (reverse (drop_while is_space s)))).
  rewrite <- reverse_app, <- take_drop_while, reverse_involutive.
  apply take_drop_while.
Qed.

(** The text the verifier inspects is made of pieces of what the client
    printed: a phrase without newline found in it was printed. *)
Lemma last_lines_contains (X : str) (p : completed) :
  X <> [] -> NL ∉ X ->
  contains X (last_lines p) = true ->
  contains X (stdout p ++ [NL] ++ stderr p) = true.
Proof.
  intros Hne HX H. unfold last_lines, last_n in H.
  set (whole := stdout p ++ [NL] ++ stderr p) in *.
  apply contains_join in H as (l & Hl & Hc); [| assumption..].
  apply (subseteq_drop _ _ l) in Hl.
  apply splitlines_from_infix in Hl as (a & b & Hs).
  change (reverse [] ++ strip whole) with (strip whole) in Hs.
  destruct (strip_infix whole) as (a' & b' & Hw).
  apply contains_spec in Hc as (u & v & ->).
  apply contains_spec. exists (a' ++ a ++ u), (v ++ b ++ b').
  rewrite Hw at 1. rewrite Hs, <- !app_assoc. reflexivity.
Qed.




(** ** Closed forms of the other functions

    Each lemma spells out what a function does in terms of what the
    outside world answers; [fetch_leaf_cert_run] above is the first. *)

Lemma extract_aia_issuer_url_run (env : Env) (w : world) :
  let p := x509_text env (leaf_pem (disk w)) in
  let w' := ran_world f_extract_aia_issuer_url openssl_x509_text (disk w) w in
  extract_aia_issuer_url env w =
  if Z.eqb (returncode p) 0 then
    match re_search match_ca_issuers (stdout p) with
    | None => (Raise (RuntimeError MSG_NO_AIA), w')
    | Some g => (Return g, w')
    end
  else (Raise (CalledProcessError openssl_x509_text (returncode p)), w').
Proof.
  unfold extract_aia_issuer_url, ran_world. run_code.
  rewrite <- app_assoc. simpl app.
  destruct (Z.eqb _ 0); [|reflexivity]. run_code.
  destruct (re_search _ _); reflexivity.
Qed.

Lemma download_issuer_run (env : Env) (url : str) (w : world) :
  let rc := fst (curl env url) in
  let d := saved_disk ISSUER_BIN (snd (curl env url)) (disk w) in
  let w' := ran_world f_download_issuer (curl_L_o url) d w in
  download_issuer env url w =
  if Z.eqb rc 0 then
    match issuer_bin d with
    | None => (Raise (RuntimeError MSG_DOWNLOAD), w')
    | Some b =>
        if (length b <? 200)%nat then (Raise (RuntimeError MSG_DOWNLOAD), w')
        else (Return tt, w')
    end
  else (Raise (CalledProcessError (curl_L_o url) rc), w').
Proof.
  unfold download_issuer, ran_world, saved_disk. run_code.
  rewrite <- app_assoc. simpl app.
  destruct (snd (curl env url)) as [b|]; run_code;
    (destruct (Z.eqb _ 0); [|reflexivity]); run_code.
  - destruct (length b <? 200)%nat; reflexivity.
  - destruct (issuer_bin (disk w)) as [b|]; [|reflexivity].
    destruct (length b <? 200)%nat; reflexivity.
Qed.

Lemma issuer_to_pem_run (env : Env) (w : world) :
  let w1 := entered_world f_issuer_to_pem w in
  issuer_to_pem env w =
  match issuer_bin (disk w) with
  | None => (Raise FileNotFoundError, w1)
  | Some data =>
      if contains BEGIN_CERTIFICATE data then
        (Return tt, World (store_file ISSUER_PEM data (disk w)) (log w1))
      else
        let r := x509_inform_DER env (Some data) in
        let d := saved_disk ISSUER_PEM (snd r) (disk w) in
        let w2 := ran_world f_issuer_to_pem openssl_x509_inform_DER d w in
        if Z.eqb (fst r) 0 then
          match issuer_pem d with
          | None => (Raise (RuntimeError MSG_CONVERT), w2)
          | Some b =>
              match decode_utf8 Ignore b with
              | None => (Raise UnicodeDecodeError, w2)
              | Some text =>
                  if contains (lit "BEGIN CERTIFICATE")
                              (universal_newlines text)
                  then (Return tt, w2)
                  else (Raise (RuntimeError MSG_CONVERT), w2)
              end
          end
        else (Raise (CalledProcessError openssl_x509_inform_DER (fst r)), w2)
  end.
Proof.
  unfold issuer_to_pem, entered_world, ran_world, saved_disk. run_code.
  destruct (issuer_bin (disk w)) as [data|] eqn:Hbin; [|reflexivity].
  run_code.
  destruct (contains BEGIN_CERTIFICATE data);
    [rewrite <- Hbin; reflexivity|].
  run_code. rewrite <- app_assoc. simpl app.
  destruct (snd (x509_inform_DER env (Some data))) as [b|]; run_code;
    (destruct (Z.eqb _ 0); [|rewrite <- ?Hbin; reflexivity]); run_code.
  - destruct (decode_utf8 Ignore b); [|rewrite <- Hbin; reflexivity].
    run_code. destruct (contains _ _); rewrite <- Hbin; reflexivity.
  - destruct (issuer_pem (disk w)) as [b|] eqn:Hpem; [|reflexivity].
    run_code. rewrite Hpem.
    destruct (decode_utf8 Ignore b); [|reflexivity]. run_code.
    destruct (contains _ _); reflexivity.
Qed.

Lemma build_bundle_run (env : Env) (w : world) :
  let w1 := entered_world f_build_bundle w in
  build_bundle env w =
  match certifi_where env with
  | None => (Raise FileNotFoundError, w1)
  | Some rb =>
      match decode_utf8 Strict rb with
      | None => (Raise UnicodeDecodeError, w1)
      | Some roots =>
          match issuer_pem (disk w) with
          | None => (Raise FileNotFoundError, w1)
          | Some ib =>
              match decode_utf8 Strict ib with
              | None => (Raise UnicodeDecodeError, w1)
              | Some issuer =>
                  match encode_utf8 (universal_newlines roots ++ [NL]
                                     ++ universal_newlines issuer ++ [NL])
                  with
                  | None => (Raise UnicodeEncodeError, w1)
                  | Some b =>
                      (Return tt,
                       World (store_file BUNDLE_PEM b (disk w)) (log w1))
                  end
              end
          end
      end
  end.
Proof.
  unfold build_bundle, entered_world. run_code.
  destruct (certifi_where env) as [rb|]; [|reflexivity]. run_code.
  destruct (decode_utf8 Strict rb); [|reflexivity]. run_code.
  destruct (issuer_pem (disk w)) as [ib|] eqn:Hpem; [|reflexivity]. run_code.
  destruct (decode_utf8 Strict ib); [|reflexivity]. run_code.
  unfold write_text. destruct (encode_utf8 _); [|reflexivity].
  run_code. rewrite <- Hpem. reflexivity.
Qed.

Lemma verify_bundle_run (env : Env) (w : world) :
  let p := s_client_CAfile env (bundle_pem (disk w)) in
  let w' := ran_world f_verify_bundle openssl_s_client_CAfile (disk w) w in
  verify_bundle env w =
  if contains VERIFY_OK (last_lines p) then (Return tt, w')
  else (Raise (RuntimeError (MSG_VERIFY ++ last_lines p)), w').
Proof.
  unfold verify_bundle, ran_world. run_code. rewrite <- app_assoc.
  destruct (contains VERIFY_OK _); reflexivity.
Qed.

(** [main] is the six calls in a row: the first exception ends the run. *)
Lemma main_run (env : Env) (w : world) :
  main env w =
  match fetch_leaf_cert env w with
  | (Raise e, w1) => (Raise e, w1)
  | (Return _, w1) =>
  match extract_aia_issuer_url env w1 with
  | (Raise e, w2) => (Raise e, w2)
  | (Return url, w2) =>
  match download_issuer env url w2 with
  | (Raise e, w3) => (Raise e, w3)
  | (Return _, w3) =>
  match issuer_to_pem env w3 with
  | (Raise e, w4) => (Raise e, w4)
  | (Return _, w4) =>
  match build_bundle env w4 with
  | (Raise e, w5) => (Raise e, w5)
  | (Return _, w5) =>
  match verify_bundle env w5 with
  | (Raise e, w6) => (Raise e, w6)
  | (Return _, w6) =>
      (Return tt, World (disk w6) (log w6 ++ [PrintBundleReady]))
  end end end end end end.
Proof.
  unfold main, bind.
  destruct (fetch_leaf_cert env w) as [[[]|e] w1]; [|reflexivity].
  destruct (extract_aia_issuer_url env w1) as [[url|e] w2]; [|reflexivity].
  destruct (download_issuer env url w2) as [[[]|e] w3]; [|reflexivity].
  destruct (issuer_to_pem env w3) as [[[]|e] w4]; [|reflexivity].
  destruct (build_bundle env w4) as [[[]|e] w5]; [|reflexivity].
  destruct (verify_bundle env w5) as [[[]|e] w6]; reflexivity.
Qed.

(** ** What each function leaves untouched *)

Lemma fetch_leaf_cert_frame (env : Env) (w : world) :
  let d := disk (snd (fetch_leaf_cert env w)) in
  issuer_bin d = issuer_bin (disk w) /\ issuer_pem d = issuer_pem (disk w)
  /\ bundle_pem d = bundle_pem (disk w).
Proof.
  rewrite fetch_leaf_cert_run.
  repeat match goal with |- context [match ?x with _ => _ end] =>
                           destruct x end; auto.
Qed.

Lemma extract_aia_issuer_url_frame (env : Env) (w : world) :
  disk (snd (extract_aia_issuer_url env w)) = disk w.
Proof.
  rewrite extract_aia_issuer_url_run.
  repeat match goal with |- context [match ?x with _ => _ end] =>
                           destruct x end; reflexivity.
Qed.

Lemma download_issuer_frame (env : Env) (url : str) (w : world) :
  let d := disk (snd (download_issuer env url w)) in
  leaf_pem d = leaf_pem (disk w) /\ issuer_pem d = issuer_pem (disk w)
  /\ bundle_pem d = bundle_pem (disk w).
Proof.
  rewrite download_issuer_run. unfold saved_disk.
  destruct (snd (curl env url));
  repeat match goal with |- context [match ?x with _ => _ end] =>
                           destruct x end; auto.
Qed.

Lemma issuer_to_pem_frame (env : Env) (w : world) :
  let d := disk (snd (issuer_to_pem env w)) in
  leaf_pem d = leaf_pem (disk w) /\ issuer_bin d = issuer_bin (disk w)
  /\ bundle_pem d = bundle_pem (disk w).
Proof.
  rewrite issuer_to_pem_run. unfold saved_disk.
  destruct (issuer_bin (disk w)) as [data|] eqn:Hbin; [|auto].
  destruct (contains BEGIN_CERTIFICATE data); [simpl; auto|].
  cbv zeta. destruct (snd (x509_inform_DER env (Some data)));
  repeat match goal with |- context [match ?x with _ => _ end] =>
                           destruct x end; simpl; auto.
Qed.

(** ** The issuer fetcher *)

(** C2, as the code has it.  With [rc] the exit status of [curl] and [d]
    the working directory it leaves: the fetcher raises its [RuntimeError]
    (the error the specification calls DownloadError) exactly when [curl]
    exits with 0 and the saved file is missing or shorter than 200 bytes;
    a non-zero exit status raises the [CalledProcessError] of
    [check=True] instead; a file of 200 bytes or more passes.  The HTTP
    status plays no part: for any answer of the server, whatever its
    status, the outcome is decided by the length of the body alone.
    When the fetcher fails inside [main], the run ends with that
    exception and the bundle file is the one that was there before. *)
Theorem download_issuer_spec (env : Env) (url : str) (w : world) :
  let rc := fst (curl env url) in
  let d := saved_disk ISSUER_BIN (snd (curl env url)) (disk w) in
  let w' := ran_world f_download_issuer (curl_L_o url) d w in
  let implausible :=
    match issuer_bin d with
    | None => true
    | Some b => (length b <? 200)%nat
    end in
  (download_issuer env url w = (Raise (RuntimeError MSG_DOWNLOAD), w')
   <-> rc = 0%Z /\ implausible = true) /\
  (rc <> 0%Z ->
   download_issuer env url w
   = (Raise (CalledProcessError (curl_L_o url) rc), w')) /\
  (rc = 0%Z -> implausible = false ->
   download_issuer env url w = (Return tt, w')) /\
  (forall status body,
      curl env url = curl_L_o_result (Response status body) ->
      download_issuer env url w
      = if (length body <? 200)%nat
        then (Raise (RuntimeError MSG_DOWNLOAD), w')
        else (Return tt, w')) /\
  (forall w0 w1 e w3,
      fetch_leaf_cert env w0 = (Return tt, w1) ->
      extract_aia_issuer_url env w1 = (Return url, w) ->
      download_issuer env url w = (Raise e, w3) ->
      main env w0 = (Raise e, w3) /\
      bundle_pem (disk w3) = bundle_pem (disk w0)).
Proof.
  intros rc d w' implausible.
  pose proof (download_issuer_run env url w) as Hrun.
  cbv zeta in Hrun. fold rc d w' in Hrun.
  assert (download_issuer env url w
          = if Z.eqb rc 0
            then if implausible then (Raise (RuntimeError MSG_DOWNLOAD), w')
                 else (Return tt, w')
            else (Raise (CalledProcessError (curl_L_o url) rc), w')) as Hcase.
  { rewrite Hrun. unfold implausible.
    destruct (Z.eqb rc 0); [|reflexivity].
    destruct (issuer_bin d) as [b|]; reflexivity. }
  split; [|split; [|split; [|split]]].
  - rewrite Hcase. destruct (Z.eqb rc 0) eqn:Hrc.
    + apply Z.eqb_eq in Hrc. destruct implausible; split; try done.
      intros [_ ?]; done.
    + apply Z.eqb_neq in Hrc. split; [discriminate | intros [? _]; done].
  - intros Hrc. apply Z.eqb_neq in Hrc. rewrite Hcase, Hrc. reflexivity.
  - intros Hrc Hok. rewrite Hcase, Hrc, Hok. reflexivity.
  - intros status body Hcurl. rewrite Hcase.
    unfold implausible, d, rc. rewrite Hcurl. reflexivity.
  - intros w0 w1 e w3 Hfetch Hloc Hdl. split.
    + rewrite main_run, Hfetch, Hloc, Hdl. reflexivity.
    + pose proof (download_issuer_frame env url w) as (_ & _ & H3).
      pose proof (extract_aia_issuer_url_frame env w1) as H2.
      pose proof (fetch_leaf_cert_frame env w0) as (_ & _ & H1).
      rewrite Hdl in H3. rewrite Hloc in H2. rewrite Hfetch in H1.
      simpl in H1, H2, H3. congruence.
Qed.

(** A 404 with a nine-byte body: the run ends in the fetcher with its
    [RuntimeError], and no bundle file appears. *)
Lemma download_issuer_404_short :
  exists w3,
    main env_404_short new_world = (Raise (RuntimeError MSG_DOWNLOAD), w3) /\
    bundle_pem (disk w3) = None.
Proof.
  pose (w1 := snd (fetch_leaf_cert env_404_short new_world)).
  pose (w2 := snd (extract_aia_issuer_url env_404_short w1)).
  pose (w3 := snd (download_issuer env_404_short sample_url w2)).
  exists w3.
  destruct (download_issuer_spec env_404_short sample_url w2)
    as (_ & _ & _ & _ & Hmain).
  destruct (Hmain new_world w1 (RuntimeError MSG_DOWNLOAD) w3) as [Hm Hb];
    [vm_compute; reflexivity ..|].
  split; [exact Hm | exact Hb].
Defined.

(** C2 as stated fails on an issuer URL that answers 404 with an ordinary
    error page: the fetcher returns, the page is the "issuer", and the run
    ends one function later with the [CalledProcessError] of the failed
    DER conversion, not with the download error. *)
Lemma download_issuer_accepts_404_page :
  curl env_404_page sample_url = curl_L_o_result (Response 404 page_404) /\
  fst (download_issuer env_404_page sample_url
         (snd (extract_aia_issuer_url env_404_page
                 (snd (fetch_leaf_cert env_404_page new_world)))))
  = Return tt /\
  fst (main env_404_page new_world)
  = Raise (CalledProcessError openssl_x509_inform_DER 1) /\
  issuer_bin (disk (snd (main env_404_page new_world))) = Some page_404.
Proof. repeat split; vm_compute; reflexivity. Qed.

(** ** The log of each function *)

Lemma entered_since_refl (w : world) : entered_since w [] w.
Proof.
  exists []. rewrite app_nil_r. repeat split. apply not_elem_of_nil.
Qed.

Lemma entered_since_step (w0 w w1 : world) (fs : list func) (f : func) :
  entered_since w0 fs w -> entered_since w [f] w1 ->
  entered_since w0 (fs ++ [f]) w1.
Proof.
  intros (evs & Hl & He & Hp) (evs1 & Hl1 & He1 & Hp1).
  exists (evs ++ evs1). rewrite Hl1, Hl, <- app_assoc, entered_app, He, He1.
  repeat split. rewrite elem_of_app. tauto.
Qed.

Lemma entered_since_one (f : func) (w : world) (d : files) :
  entered_since w [f] (World d (log w ++ [Enter f])).
Proof.
  exists [Enter f]. repeat split.
  intros H. apply list_elem_of_singleton in H. discriminate.
Qed.

Lemma entered_since_two (f : func) (c : command) (w : world) (d : files) :
  entered_since w [f] (World d (log w ++ [Enter f; Exec c])).
Proof.
  exists [Enter f; Exec c]. repeat split.
  intros H. repeat (apply elem_of_cons in H as [H|H]; [discriminate|]).
  inversion H.
Qed.

Ltac split_run :=
  repeat match goal with
         | |- context [match ?x with _ => _ end] => destruct x
         end;
  simpl snd;
  first [apply entered_since_one | apply entered_since_two].

Lemma fetch_leaf_cert_log (env : Env) (w : world) :
  entered_since w [f_fetch_leaf_cert] (snd (fetch_leaf_cert env w)).
Proof. rewrite fetch_leaf_cert_run. cbv zeta. split_run. Qed.

Lemma extract_aia_issuer_url_log (env : Env) (w : world) :
  entered_since w [f_extract_aia_issuer_url]
                (snd (extract_aia_issuer_url env w)).
Proof.
  rewrite extract_aia_issuer_url_run. unfold ran_world. cbv zeta. split_run.
Qed.

Lemma download_issuer_log (env : Env) (url : str) (w : world) :
  entered_since w [f_download_issuer] (snd (download_issuer env url w)).
Proof.
  rewrite download_issuer_run. unfold ran_world. cbv zeta. split_run.
Qed.

Lemma issuer_to_pem_log (env : Env) (w : world) :
  entered_since w [f_issuer_to_pem] (snd (issuer_to_pem env w)).
Proof.
  rewrite issuer_to_pem_run. unfold ran_world, entered_world. cbv zeta.
  split_run.
Qed.

Lemma build_bundle_log (env : Env) (w : world) :
  entered_since w [f_build_bundle] (snd (build_bundle env w)).
Proof.
  rewrite build_bundle_run. unfold entered_world. cbv zeta. split_run.
Qed.

Lemma verify_bundle_log (env : Env) (w : world) :
  entered_since w [f_verify_bundle] (snd (verify_bundle env w)).
Proof.
  rewrite verify_bundle_run. unfold ran_world. cbv zeta. split_run.
Qed.

Lemma build_bundle_disk (env : Env) (w : world) :
  match build_bundle env w with
  | (Raise _, w') => disk w' = disk w
  | (Return _, w') =>
      exists b, disk w' = store_file BUNDLE_PEM b (disk w)
  end.
Proof.
  rewrite build_bundle_run. cbv zeta.
  destruct (certifi_where env) as [rb|]; [|reflexivity].
  destruct (decode_utf8 Strict rb); [|reflexivity].
  destruct (issuer_pem (disk w)) as [ib|]; [|reflexivity].
  destruct (decode_utf8 Strict ib); [|reflexivity].
  destruct (encode_utf8 _) as [b|]; [|reflexivity].
  exists b. reflexivity.
Qed.

Lemma verify_bundle_disk (env : Env) (w : world) :
  disk (snd (verify_bundle env w)) = disk w.
Proof.
  rewrite verify_bundle_run. cbv zeta.
  destruct (contains _ _); reflexivity.
Qed.

Lemma verify_bundle_error (env : Env) (w w' : world) (e : exn) :
  verify_bundle env w = (Raise e, w') ->
  exists tail, e = RuntimeError (MSG_VERIFY ++ tail).
Proof.
  rewrite verify_bundle_run. cbv zeta.
  destruct (contains _ _); [discriminate|]. intros [= <- _]. eauto.
Qed.

(** ** Failing fast *)

(** Where a failed run of [main] stopped: in its [k]-th function, after
    entering the first [k] functions and nothing else. *)
Lemma main_failure (env : Env) (w w' : world) (e : exn) :
  main env w = (Raise e, w') ->
  exists k wb,
    (1 <= k <= 6)%nat /\
    entered_since w (take k call_order) w' /\
    stage_fails env k wb e w' /\
    ((k <= 5)%nat -> bundle_pem (disk w') = bundle_pem (disk w)) /\
    (k = 6%nat ->
     exists w4 b,
       build_bundle env w4 = (Return tt, wb) /\
       disk w' = disk wb /\ bundle_pem (disk w') = Some b).
Proof.
  rewrite main_run.
  pose proof (fetch_leaf_cert_log env w) as L1.
  pose proof (fetch_leaf_cert_frame env w) as (_ & _ & F1).
  destruct (fetch_leaf_cert env w) as [[[]|e1] w1] eqn:E1;
    simpl in L1, F1;
    pose proof (entered_since_step _ _ _ _ _ (entered_since_refl w) L1) as T1.
  2:{ intros [= <- <-]. exists 1%nat, w.
      split; [lia|]. split; [exact T1|]. split; [exact E1|].
      split; [intros _; exact F1 | discriminate]. }
  pose proof (extract_aia_issuer_url_log env w1) as L2.
  pose proof (extract_aia_issuer_url_frame env w1) as F2.
  destruct (extract_aia_issuer_url env w1) as [[url|e2] w2] eqn:E2;
    simpl in L2, F2;
    pose proof (entered_since_step _ _ _ _ _ T1 L2) as T2.
  2:{ intros [= <- <-]. exists 2%nat, w1.
      split; [lia|]. split; [exact T2|]. split; [exact E2|].
      split; [intros _; congruence | discriminate]. }
  pose proof (download_issuer_log env url w2) as L3.
  pose proof (download_issuer_frame env url w2) as (_ & _ & F3).
  destruct (download_issuer env url w2) as [[[]|e3] w3] eqn:E3;
    simpl in L3, F3;
    pose proof (entered_since_step _ _ _ _ _ T2 L3) as T3.
  2:{ intros [= <- <-]. exists 3%nat, w2.
      split; [lia|]. split; [exact T3|]. split; [exists url; exact E3|].
      split; [intros _; congruence | discriminate]. }
  pose proof (issuer_to_pem_log env w3) as L4.
  pose proof (issuer_to_pem_frame env w3) as (_ & _ & F4).
  destruct (issuer_to_pem env w3) as [[[]|e4] w4] eqn:E4;
    simpl in L4, F4;
    pose proof (entered_since_step _ _ _ _ _ T3 L4) as T4.
  2:{ intros [= <- <-]. exists 4%nat, w3.
      split; [lia|]. split; [exact T4|]. split; [exact E4|].
      split; [intros _; congruence | discriminate]. }
  pose proof (build_bundle_log env w4) as L5.
  pose proof (build_bundle_disk env w4) as F5.
  destruct (build_bundle env w4) as [[[]|e5] w5] eqn:E5;
    simpl in L5;
    pose proof (entered_since_step _ _ _ _ _ T4 L5) as T5.
  2:{ intros [= <- <-]. exists 5%nat, w4.
      split; [lia|]. split; [exact T5|]. split; [exact E5|].
      split; [intros _; congruence | discriminate]. }
  pose proof (verify_bundle_log env w5) as L6.
  pose proof (verify_bundle_disk env w5) as F6.
  destruct (verify_bundle env w5) as [[[]|e6] w6] eqn:E6;
    simpl in L6, F6;
    pose proof (entered_since_step _ _ _ _ _ T5 L6) as T6.
  1:{ discriminate. }
  intros [= <- <-]. exists 6%nat, w5.
  split; [lia|]. split; [exact T6|]. split; [exact E6|].
  split; [intros; lia|]. intros _.
  destruct F5 as [b F5]. exists w4, b.
  split; [exact E5|]. split; [exact F6|].
  rewrite F6, F5. reflexivity.
Qed.

(** The log of a call. *)
Lemma called_since_refl (w : world) : called_since w [] w.
Proof. exists []. simpl. rewrite app_nil_r. split; constructor. Qed.

Lemma called_since_step (w0 w w1 : world) (fs : list func) (f : func) :
  called_since w0 fs w -> called_since w [f] w1 ->
  called_since w0 (fs ++ [f]) w1.
Proof.
  intros (segs & Hl & Hf) (segs1 & Hl1 & Hf1).
  exists (segs ++ segs1). split.
  - rewrite Hl1, Hl, concat_app, <- app_assoc. reflexivity.
  - apply Forall2_app; assumption.
Qed.

Lemma called_since_one (f : func) (w : world) (d : files) :
  called_since w [f] (World d (log w ++ [Enter f])).
Proof.
  exists [[Enter f]]. split; [reflexivity|].
  repeat constructor.
Qed.

Lemma called_since_two (f : func) (c : command) (w : world) (d : files) :
  runs f c = true ->
  called_since w [f] (World d (log w ++ [Enter f; Exec c])).
Proof.
  intros H. exists [[Enter f; Exec c]]. split; [reflexivity|].
  constructor; [|constructor]. right. exists c. auto.
Qed.

Ltac split_call :=
  repeat match goal with
         | |- context [match ?x with _ => _ end] => destruct x
         end;
  simpl snd;
  first [apply called_since_one | apply called_since_two; reflexivity].

Lemma fetch_leaf_cert_called (env : Env) (w : world) :
  called_since w [f_fetch_leaf_cert] (snd (fetch_leaf_cert env w)).
Proof. rewrite fetch_leaf_cert_run. cbv zeta. split_call. Qed.

Lemma extract_aia_issuer_url_called (env : Env) (w : world) :
  called_since w [f_extract_aia_issuer_url]
               (snd (extract_aia_issuer_url env w)).
Proof.
  rewrite extract_aia_issuer_url_run. unfold ran_world. cbv zeta. split_call.
Qed.

Lemma download_issuer_called (env : Env) (url : str) (w : world) :
  called_since w [f_download_issuer] (snd (download_issuer env url w)).
Proof.
  rewrite download_issuer_run. unfold ran_world. cbv zeta. split_call.
Qed.

Lemma issuer_to_pem_called (env : Env) (w : world) :
  called_since w [f_issuer_to_pem] (snd (issuer_to_pem env w)).
Proof.
  rewrite issuer_to_pem_run. unfold ran_world, entered_world. cbv zeta.
  split_call.
Qed.

Lemma build_bundle_called (env : Env) (w : world) :
  called_since w [f_build_bundle] (snd (build_bundle env w)).
Proof.
  rewrite build_bundle_run. unfold entered_world. cbv zeta. split_call.
Qed.

Lemma verify_bundle_called (env : Env) (w : world) :
  called_since w [f_verify_bundle] (snd (verify_bundle env w)).
Proof.
  rewrite verify_bundle_run. unfold ran_world. cbv zeta. split_call.
Qed.

(** The calls of [fs] enter the functions [fs] and print no report. *)
Lemma call_traces_entered (fs : list func) (segs : list (list event)) :
  Forall2 call_trace fs segs ->
  entered (concat segs) = fs /\ PrintBundleReady ∉ concat segs.
Proof.
  induction 1 as [|f evs fs segs Hc _ [IH1 IH2]]; simpl.
  - split; [reflexivity | apply not_elem_of_nil].
  - rewrite entered_app, IH1. rewrite elem_of_app.
    destruct Hc as [-> | (c & _ & ->)]; simpl; (split; [reflexivity|]);
      intros [H|H]; try (exact (IH2 H));
      repeat (apply elem_of_cons in H as [H|H]; [discriminate|]);
      inversion H.
Qed.

Lemma called_since_entered (w0 w : world) (fs : list func) :
  called_since w0 fs w -> entered_since w0 fs w.
Proof.
  intros (segs & Hl & Hf). exists (concat segs).
  destruct (call_traces_entered _ _ Hf). auto.
Qed.

(** The calls of [fs] run commands of the functions [fs] only. *)
Lemma call_traces_executed (fs : list func) (segs : list (list event)) :
  Forall2 call_trace fs segs ->
  Forall (fun c => exists f, f ∈ fs /\ runs f c = true)
         (executed (concat segs)).
Proof.
  induction 1 as [|f evs fs segs Hc _ IH]; simpl; [constructor|].
  rewrite executed_app. apply Forall_app. split.
  - destruct Hc as [-> | (c & Hr & ->)]; simpl; repeat constructor.
    exists f. split; [left | exact Hr].
  - eapply Forall_impl; [exact IH|]. intros c (g & Hg & Hr).
    exists g. split; [right; exact Hg | exact Hr].
Qed.

(** Where and how a failed run of [main] stopped. *)
Lemma main_stops (env : Env) (w w' : world) (e : exn) :
  main env w = (Raise e, w') ->
  exists k wb,
    (1 <= k <= 6)%nat /\
    stops_in env k w e w' /\
    stage_fails env k wb e w' /\
    called_since w (take (k - 1) call_order) wb /\
    called_since w (take k call_order) w' /\
    ((k <= 5)%nat -> bundle_pem (disk w') = bundle_pem (disk w)) /\
    (k = 6%nat ->
     exists w4 b,
       build_bundle env w4 = (Return tt, wb) /\
       disk w' = disk wb /\ bundle_pem (disk w') = Some b).
Proof.
  rewrite main_run.
  pose proof (called_since_refl w) as T0.
  pose proof (fetch_leaf_cert_called env w) as L1.
  pose proof (fetch_leaf_cert_frame env w) as (_ & _ & F1).
  destruct (fetch_leaf_cert env w) as [[[]|e1] w1] eqn:E1;
    simpl in L1, F1;
    pose proof (called_since_step _ _ _ _ _ T0 L1) as T1.
  2:{ intros [= <- <-]. exists 1%nat, w.
      split; [lia|]. split; [exact E1|]. split; [exact E1|].
      split; [exact T0|]. split; [exact T1|].
      split; [intros _; exact F1 | discriminate]. }
  pose proof (extract_aia_issuer_url_called env w1) as L2.
  pose proof (extract_aia_issuer_url_frame env w1) as F2.
  destruct (extract_aia_issuer_url env w1) as [[url|e2] w2] eqn:E2;
    simpl in L2, F2;
    pose proof (called_since_step _ _ _ _ _ T1 L2) as T2.
  2:{ intros [= <- <-]. exists 2%nat, w1.
      split; [lia|]. split; [exists w1; auto|]. split; [exact E2|].
      split; [exact T1|]. split; [exact T2|].
      split; [intros _; congruence | discriminate]. }
  pose proof (download_issuer_called env url w2) as L3.
  pose proof (download_issuer_frame env url w2) as (_ & _ & F3).
  destruct (download_issuer env url w2) as [[[]|e3] w3] eqn:E3;
    simpl in L3, F3;
    pose proof (called_since_step _ _ _ _ _ T2 L3) as T3.
  2:{ intros [= <- <-]. exists 3%nat, w2.
      split; [lia|]. split; [exists w1, url, w2; auto|].
      split; [exists url; exact E3|].
      split; [exact T2|]. split; [exact T3|].
      split; [intros _; congruence | discriminate]. }
  pose proof (issuer_to_pem_called env w3) as L4.
  pose proof (issuer_to_pem_frame env w3) as (_ & _ & F4).
  destruct (issuer_to_pem env w3) as [[[]|e4] w4] eqn:E4;
    simpl in L4, F4;
    pose proof (called_since_step _ _ _ _ _ T3 L4) as T4.
  2:{ intros [= <- <-]. exists 4%nat, w3.
      split; [lia|]. split; [exists w1, url, w2, w3; auto|].
      split; [exact E4|].
      split; [exact T3|]. split; [exact T4|].
      split; [intros _; congruence | discriminate]. }
  pose proof (build_bundle_called env w4) as L5.
  pose proof (build_bundle_disk env w4) as F5.
  destruct (build_bundle env w4) as [[[]|e5] w5] eqn:E5;
    simpl in L5;
    pose proof (called_since_step _ _ _ _ _ T4 L5) as T5.
  2:{ intros [= <- <-]. exists 5%nat, w4.
      split; [lia|]. split; [exists w1, url, w2, w3, w4; auto 6|].
      split; [exact E5|].
      split; [exact T4|]. split; [exact T5|].
      split; [intros _; congruence | discriminate]. }
  pose proof (verify_bundle_called env w5) as L6.
  pose proof (verify_bundle_disk env w5) as F6.
  destruct (verify_bundle env w5) as [[[]|e6] w6] eqn:E6;
    simpl in L6, F6;
    pose proof (called_since_step _ _ _ _ _ T5 L6) as T6.
  1:{ discriminate. }
  intros [= <- <-]. exists 6%nat, w5.
  split; [lia|]. split; [exists w1, url, w2, w3, w4, w5; auto 7|].
  split; [exact E6|].
  split; [exact T5|]. split; [exact T6|].
  split; [intros; lia|]. intros _.
  destruct F5 as [b F5]. exists w4, b.
  split; [exact E5|]. split; [exact F6|].
  rewrite F6, F5. reflexivity.
Qed.




(** ** The exceptions of the script *)

(** The only [RuntimeError] a function can end with is its own. *)
Lemma fetch_leaf_cert_raises (env : Env) (w w' : world) (msg : str) :
  fetch_leaf_cert env w = (Raise (RuntimeError msg), w') -> msg = MSG_EXTRACT.
Proof.
  rewrite fetch_leaf_cert_run. cbv zeta.
  destruct (Z.eqb _ 0); [|discriminate].
  destruct (re_search _ _); [|congruence].
  destruct (encode_utf8 _); discriminate.
Qed.

Lemma extract_aia_issuer_url_raises (env : Env) (w w' : world) (msg : str) :
  extract_aia_issuer_url env w = (Raise (RuntimeError msg), w') ->
  msg = MSG_NO_AIA.
Proof.
  rewrite extract_aia_issuer_url_run. cbv zeta.
  destruct (Z.eqb _ 0); [|discriminate].
  destruct (re_search _ _); [discriminate | congruence].
Qed.

Lemma download_issuer_raises (env : Env) (url : str) (w w' : world)
    (msg : str) :
  download_issuer env url w = (Raise (RuntimeError msg), w') ->
  msg = MSG_DOWNLOAD.
Proof.
  rewrite download_issuer_run. cbv zeta.
  destruct (Z.eqb _ 0); [|discriminate].
  destruct (issuer_bin _) as [b|]; [|congruence].
  destruct (length b <? 200)%nat; [congruence | discriminate].
Qed.

Lemma issuer_to_pem_raises (env : Env) (w w' : world) (msg : str) :
  issuer_to_pem env w = (Raise (RuntimeError msg), w') -> msg = MSG_CONVERT.
Proof.
  rewrite issuer_to_pem_run. cbv zeta.
  destruct (issuer_bin (disk w)) as [data|]; [|discriminate].
  destruct (contains BEGIN_CERTIFICATE data); [discriminate|].
  destruct (Z.eqb _ 0); [|discriminate].
  destruct (issuer_pem _) as [b|]; [|congruence].
  destruct (decode_utf8 Ignore b); [|discriminate].
  destruct (contains _ _); [discriminate | congruence].
Qed.

Lemma build_bundle_raises (env : Env) (w w' : world) (msg : str) :
  build_bundle env w <> (Raise (RuntimeError msg), w').
Proof.
  rewrite build_bundle_run. cbv zeta.
  destruct (certifi_where env) as [rb|]; [|discriminate].
  destruct (decode_utf8 Strict rb); [|discriminate].
  destruct (issuer_pem (disk w)) as [ib|]; [|discriminate].
  destruct (decode_utf8 Strict ib); [|discriminate].
  destruct (encode_utf8 _); discriminate.
Qed.

Lemma category_of_verify_message (tail : str) :
  category_of_message (MSG_VERIFY ++ tail) = Some VerificationFailedError.
Proof.
  unfold category_of_message.
  repeat (destruct (decide _) as [H|_]; [vm_compute in H; discriminate H|]).
  rewrite starts_with_app. reflexivity.
Qed.

(** C10: every [RuntimeError] that ends a run of [main] carries one of
    five messages, and the message tells in which function the run
    stopped: the fixed sentence of the leaf fetcher, of the locator, of
    the issuer fetcher or of the normalizer, or the heading of the
    verifier followed by the client's last lines.  Each of the five
    categories of the specification is reached by a run, and in each of
    them the exception is a [RuntimeError]: the category can be read off
    the message only. *)
Theorem runtime_error_names_the_stage :
  (forall env w w' msg,
      main env w = (Raise (RuntimeError msg), w') ->
      exists c fs,
        category_of_message msg = Some c /\
        entered_since w (fs ++ [raised_in c]) w') /\
  (forall c, exists msg w',
      main (env_failing c) new_world = (Raise (RuntimeError msg), w') /\
      category_of_message msg = Some c).
Proof.
  split.
  - intros env w w' msg H.
    apply main_failure in H as (k & wb & Hk & Ht & Hs & _).
    destruct k as [|[|[|[|[|[|[|k]]]]]]]; try lia; simpl in Hs, Ht.
    + apply fetch_leaf_cert_raises in Hs as ->.
      exists ExtractionError, []. split; [reflexivity | exact Ht].
    + apply extract_aia_issuer_url_raises in Hs as ->.
      exists MissingAIAError, [f_fetch_leaf_cert].
      split; [reflexivity | exact Ht].
    + destruct Hs as [url Hs]. apply download_issuer_raises in Hs as ->.
      exists DownloadError, [f_fetch_leaf_cert; f_extract_aia_issuer_url].
      split; [reflexivity | exact Ht].
    + apply issuer_to_pem_raises in Hs as ->.
      exists ConversionError,
        [f_fetch_leaf_cert; f_extract_aia_issuer_url; f_download_issuer].
      split; [reflexivity | exact Ht].
    + destruct (build_bundle_raises _ _ _ _ Hs).
    + apply verify_bundle_error in Hs as [tail [= ->]].
      exists VerificationFailedError,
        [f_fetch_leaf_cert; f_extract_aia_issuer_url; f_download_issuer;
         f_issuer_to_pem; f_build_bundle].
      split; [apply category_of_verify_message | exact Ht].
  - intros c.
    exists (match fst (main (env_failing c) new_world) with
            | Raise (RuntimeError m) => m
            | _ => []
            end), (snd (main (env_failing c) new_world)).
    destruct c; split; vm_compute; reflexivity.
Qed.

(** ** Running twice *)

Lemma store_file_same (p : path) (b : bytes) (d : files) :
  lookup_file p d = Some b -> store_file p b d = d.
Proof. destruct d, p; simpl; intros ->; reflexivity. Qed.

Lemma saved_disk_same (p : path) (saved : option bytes) (d d' : files) :
  lookup_file p d' = lookup_file p (saved_disk p saved d) ->
  saved_disk p saved d' = d' /\
  lookup_file p (saved_disk p saved d') = lookup_file p d'.
Proof.
  destruct saved as [b|]; simpl; [|auto].
  intros H. rewrite store_file_same; [auto|].
  rewrite H. destruct d, p; reflexivity.
Qed.

(** Each function, started again in a working directory [v] that already
    holds what its first run left in the files it reads and writes, ends
    the same way and changes nothing. *)
Lemma fetch_leaf_cert_rerun (env : Env) (w v : world) :
  leaf_pem (disk v) = leaf_pem (disk (snd (fetch_leaf_cert env w))) ->
  fst (fetch_leaf_cert env v) = fst (fetch_leaf_cert env w) /\
  disk (snd (fetch_leaf_cert env v)) = disk v.
Proof.
  rewrite !fetch_leaf_cert_run. cbv zeta.
  destruct (Z.eqb _ 0); [|auto].
  destruct (re_search _ _); [|auto].
  destruct (encode_utf8 _) as [b|]; [|auto].
  simpl. intros H. split; [reflexivity|].
  apply (store_file_same LEAF_PEM). exact H.
Qed.

Lemma extract_aia_issuer_url_rerun (env : Env) (w v : world) :
  leaf_pem (disk v) = leaf_pem (disk w) ->
  fst (extract_aia_issuer_url env v) = fst (extract_aia_issuer_url env w) /\
  disk (snd (extract_aia_issuer_url env v)) = disk v.
Proof.
  intros H. rewrite !extract_aia_issuer_url_run. cbv zeta. rewrite H.
  destruct (Z.eqb _ 0); [|auto].
  destruct (re_search _ _); auto.
Qed.

Lemma download_issuer_disk (env : Env) (url : str) (w : world) :
  disk (snd (download_issuer env url w))
  = saved_disk ISSUER_BIN (snd (curl env url)) (disk w).
Proof.
  rewrite download_issuer_run. cbv zeta.
  destruct (Z.eqb _ 0); [|reflexivity].
  destruct (issuer_bin _) as [b|]; [|reflexivity].
  destruct (length b <? 200)%nat; reflexivity.
Qed.

Lemma download_issuer_rerun (env : Env) (url : str) (w v : world) :
  issuer_bin (disk v) = issuer_bin (disk (snd (download_issuer env url w))) ->
  fst (download_issuer env url v) = fst (download_issuer env url w) /\
  disk (snd (download_issuer env url v)) = disk v.
Proof.
  intros H.
  assert (issuer_bin (disk v)
          = issuer_bin (saved_disk ISSUER_BIN (snd (curl env url)) (disk w)))
    as H'.
  { rewrite H, download_issuer_disk. reflexivity. }
  destruct (saved_disk_same ISSUER_BIN _ _ _ H') as [Hd Hb].
  simpl in Hb. rewrite !download_issuer_run. cbv zeta.
  rewrite Hd, <- H'.
  destruct (Z.eqb _ 0); [|auto].
  destruct (issuer_bin (disk v)) as [b|]; [|auto].
  destruct (length b <? 200)%nat; auto.
Qed.

Lemma issuer_to_pem_disk (env : Env) (w : world) :
  disk (snd (issuer_to_pem env w)) =
  match issuer_bin (disk w) with
  | None => disk w
  | Some data =>
      if contains BEGIN_CERTIFICATE data
      then store_file ISSUER_PEM data (disk w)
      else saved_disk ISSUER_PEM (snd (x509_inform_DER env (Some data)))
                      (disk w)
  end.
Proof.
  rewrite issuer_to_pem_run. cbv zeta.
  destruct (issuer_bin (disk w)) as [data|]; [|reflexivity].
  destruct (contains BEGIN_CERTIFICATE data); [reflexivity|].
  destruct (Z.eqb _ 0); [|reflexivity].
  destruct (issuer_pem _) as [b|]; [|reflexivity].
  destruct (decode_utf8 Ignore b); [|reflexivity].
  destruct (contains _ _); reflexivity.
Qed.

Lemma issuer_to_pem_rerun (env : Env) (w v : world) :
  issuer_bin (disk v) = issuer_bin (disk w) ->
  issuer_pem (disk v) = issuer_pem (disk (snd (issuer_to_pem env w))) ->
  fst (issuer_to_pem env v) = fst (issuer_to_pem env w) /\
  disk (snd (issuer_to_pem env v)) = disk v.
Proof.
  intros Hb Hp. rewrite issuer_to_pem_disk in Hp.
  rewrite !issuer_to_pem_run. cbv zeta. rewrite Hb. revert Hp.
  destruct (issuer_bin (disk w)) as [data|]; [|auto].
  destruct (contains BEGIN_CERTIFICATE data); intros Hp.
  - split; [reflexivity|]. apply (store_file_same ISSUER_PEM).
    cbn [lookup_file]. rewrite Hp. destruct (disk w); reflexivity.
  - destruct (saved_disk_same ISSUER_PEM _ _ _ Hp) as [Hd Hsame].
    simpl in Hsame. rewrite Hd, <- Hp.
    destruct (Z.eqb _ 0); [|auto].
    destruct (issuer_pem (disk v)) as [b|]; [|auto].
    destruct (decode_utf8 Ignore b); [|auto].
    destruct (contains _ _); auto.
Qed.

Lemma build_bundle_rerun (env : Env) (w v : world) :
  issuer_pem (disk v) = issuer_pem (disk w) ->
  bundle_pem (disk v) = bundle_pem (disk (snd (build_bundle env w))) ->
  fst (build_bundle env v) = fst (build_bundle env w) /\
  disk (snd (build_bundle env v)) = disk v.
Proof.
  intros Hp. rewrite !build_bundle_run. cbv zeta. rewrite Hp.
  destruct (certifi_where env) as [rb|]; [|auto].
  destruct (decode_utf8 Strict rb); [|auto].
  destruct (issuer_pem (disk w)) as [ib|]; [|auto].
  destruct (decode_utf8 Strict ib); [|auto].
  destruct (encode_utf8 _) as [b|]; [|auto].
  simpl. intros Hb. split; [reflexivity|].
  apply (store_file_same BUNDLE_PEM). exact Hb.
Qed.

Lemma verify_bundle_rerun (env : Env) (w v : world) :
  bundle_pem (disk v) = bundle_pem (disk w) ->
  fst (verify_bundle env v) = fst (verify_bundle env w) /\
  disk (snd (verify_bundle env v)) = disk v.
Proof.
  intros H. rewrite !verify_bundle_run. cbv zeta. rewrite H.
  destruct (contains _ _); auto.
Qed.

Lemma build_bundle_frame (env : Env) (w : world) :
  let d := disk (snd (build_bundle env w)) in
  leaf_pem d = leaf_pem (disk w) /\ issuer_bin d = issuer_bin (disk w)
  /\ issuer_pem d = issuer_pem (disk w).
Proof.
  pose proof (build_bundle_disk env w) as H.
  destruct (build_bundle env w) as [[[]|e] w']; simpl.
  - destruct H as [b ->]. auto.
  - rewrite H. auto.
Qed.

(** A function of the second run: it ends as in the first run and leaves
    the working directory as it found it. *)
Ltac rerun_as R D L E :=
  destruct L as [R D]; [rewrite ?E; simpl; congruence ..|];
  rewrite E in R; simpl in R.

(** [main] started again in the working directory its first run left
    ends the same way and changes no file. *)
Lemma main_rerun (env : Env) (w v : world) :
  disk v = disk (snd (main env w)) ->
  fst (main env v) = fst (main env w) /\ disk (snd (main env v)) = disk v.
Proof.
  rewrite (main_run env w), (main_run env v).
  pose proof (fetch_leaf_cert_frame env w) as (F1a & F1b & F1c).
  destruct (fetch_leaf_cert env w) as [[[]|e1] w1] eqn:E1;
    simpl in F1a, F1b, F1c.
  2:{ simpl. intros Hv.
      rerun_as R1 D1 (fetch_leaf_cert_rerun env w v) E1.
      destruct (fetch_leaf_cert env v) as [r v1]. simpl in R1, D1. subst r.
      simpl. auto. }
  pose proof (extract_aia_issuer_url_frame env w1) as F2.
  destruct (extract_aia_issuer_url env w1) as [[url|e2] w2] eqn:E2;
    simpl in F2.
  2:{ simpl. intros Hv.
      rerun_as R1 D1 (fetch_leaf_cert_rerun env w v) E1.
      destruct (fetch_leaf_cert env v) as [r v1]. simpl in R1, D1. subst r.
      rerun_as R2 D2 (extract_aia_issuer_url_rerun env w1 v1) E2.
      destruct (extract_aia_issuer_url env v1) as [r v2].
      simpl in R2, D2. subst r. simpl. split; congruence. }
  pose proof (download_issuer_frame env url w2) as (F3a & F3b & F3c).
  destruct (download_issuer env url w2) as [[[]|e3] w3] eqn:E3;
    simpl in F3a, F3b, F3c.
  2:{ simpl. intros Hv.
      rerun_as R1 D1 (fetch_leaf_cert_rerun env w v) E1.
      destruct (fetch_leaf_cert env v) as [r v1]. simpl in R1, D1. subst r.
      rerun_as R2 D2 (extract_aia_issuer_url_rerun env w1 v1) E2.
      destruct (extract_aia_issuer_url env v1) as [r v2].
      simpl in R2, D2. subst r.
      rerun_as R3 D3 (download_issuer_rerun env url w2 v2) E3.
      destruct (download_issuer env url v2) as [r v3].
      simpl in R3, D3. subst r. simpl. split; congruence. }
  pose proof (issuer_to_pem_frame env w3) as (F4a & F4b & F4c).
  destruct (issuer_to_pem env w3) as [[[]|e4] w4] eqn:E4;
    simpl in F4a, F4b, F4c.
  2:{ simpl. intros Hv.
      rerun_as R1 D1 (fetch_leaf_cert_rerun env w v) E1.
      destruct (fetch_leaf_cert env v) as [r v1]. simpl in R1, D1. subst r.
      rerun_as R2 D2 (extract_aia_issuer_url_rerun env w1 v1) E2.
      destruct (extract_aia_issuer_url env v1) as [r v2].
      simpl in R2, D2. subst r.
      rerun_as R3 D3 (download_issuer_rerun env url w2 v2) E3.
      destruct (download_issuer env url v2) as [r v3].
      simpl in R3, D3. subst r.
      rerun_as R4 D4 (issuer_to_pem_rerun env w3 v3) E4.
      destruct (issuer_to_pem env v3) as [r v4].
      simpl in R4, D4. subst r. simpl. split; congruence. }
  pose proof (build_bundle_frame env w4) as (F5a & F5b & F5c).
  destruct (build_bundle env w4) as [[[]|e5] w5] eqn:E5;
    simpl in F5a, F5b, F5c.
  2:{ simpl. intros Hv.
      rerun_as R1 D1 (fetch_leaf_cert_rerun env w v) E1.
      destruct (fetch_leaf_cert env v) as [r v1]. simpl in R1, D1. subst r.
      rerun_as R2 D2 (extract_aia_issuer_url_rerun env w1 v1) E2.
      destruct (extract_aia_issuer_url env v1) as [r v2].
      simpl in R2, D2. subst r.
      rerun_as R3 D3 (download_issuer_rerun env url w2 v2) E3.
      destruct (download_issuer env url v2) as [r v3].
      simpl in R3, D3. subst r.
      rerun_as R4 D4 (issuer_to_pem_rerun env w3 v3) E4.
      destruct (issuer_to_pem env v3) as [r v4].
      simpl in R4, D4. subst r.
      rerun_as R5 D5 (build_bundle_rerun env w4 v4) E5.
      destruct (build_bundle env v4) as [r v5].
      simpl in R5, D5. subst r. simpl. split; congruence. }
  pose proof (verify_bundle_disk env w5) as F6.
  destruct (verify_bundle env w5) as [[[]|e6] w6] eqn:E6; simpl in F6;
    simpl; intros Hv;
    rerun_as R1 D1 (fetch_leaf_cert_rerun env w v) E1;
    destruct (fetch_leaf_cert env v) as [r1 v1]; simpl in R1, D1; subst r1;
    rerun_as R2 D2 (extract_aia_issuer_url_rerun env w1 v1) E2;
    destruct (extract_aia_issuer_url env v1) as [r2 v2];
    simpl in R2, D2; subst r2;
    rerun_as R3 D3 (download_issuer_rerun env url w2 v2) E3;
    destruct (download_issuer env url v2) as [r3 v3];
    simpl in R3, D3; subst r3;
    rerun_as R4 D4 (issuer_to_pem_rerun env w3 v3) E4;
    destruct (issuer_to_pem env v3) as [r4 v4];
    simpl in R4, D4; subst r4;
    rerun_as R5 D5 (build_bundle_rerun env w4 v4) E5;
    destruct (build_bundle env v4) as [r5 v5];
    simpl in R5, D5; subst r5;
    rerun_as R6 D6 (verify_bundle_rerun env w5 v5) E6;
    destruct (verify_bundle env v5) as [r6 v6];
    simpl in R6, D6; subst r6; simpl; split; congruence.
Qed.

(** C9: run [main], then run it again in the working directory the first
    run left, against the same outside world (same host, same issuer
    server, same converter, same root store).  The second run ends the
    way the first did and leaves every file as the first run left it: in
    particular the bundle file holds the same bytes after both runs. *)
Theorem main_twice_same_bundle (env : Env) (w : world) :
  let w1 := snd (main env w) in
  let w2 := snd (main env w1) in
  fst (main env w1) = fst (main env w) /\
  disk w2 = disk w1 /\
  bundle_pem (disk w2) = bundle_pem (disk w1).
Proof.
  intros w1 w2. destruct (main_rerun env w w1 eq_refl) as [Hr Hd].
  split; [exact Hr|]. split; [exact Hd|]. unfold w2. rewrite Hd. reflexivity.
Qed.

(** The sample run succeeds, and so does its repetition, with the same
    bundle: the root store, a newline, the issuer and a newline. *)
Lemma main_twice_sample :
  fst (main sample_env new_world) = Return tt /\
  fst (main sample_env (snd (main sample_env new_world))) = Return tt /\
  bundle_pem (disk (snd (main sample_env (snd (main sample_env new_world)))))
  = Some (sample_roots ++ [NL] ++ sample_issuer ++ [NL]).
Proof.
  destruct (main_twice_same_bundle sample_env new_world) as (Hr & _ & Hb).
  split; [vm_compute; reflexivity|]. split.
  - rewrite Hr. vm_compute; reflexivity.
  - rewrite Hb. vm_compute; reflexivity.
Defined.

(** ** UTF-8: what is decoded encodes back to the same bytes *)

Lemma decode_from_drop (errors : errors_mode) (k : nat) (t : bytes) :
  decode_from errors k t = decode_from errors 0 (drop k t).
Proof.
  revert k; induction t as [|b t IH]; intros [|k]; try reflexivity.
  simpl decode_from at 1. rewrite IH. reflexivity.
Qed.

Ltac bool_hyps :=
  repeat match goal with
         | H : (_ && _) = true |- _ => apply andb_true_iff in H as [? ?]
         | H : (_ || _) = false |- _ => apply orb_false_iff in H as [? ?]
         | H : negb _ = false |- _ => apply negb_false_iff in H
         | H : is_continuation _ = true |- _ => unfold is_continuation in H
         | H : (_ <? _) = true |- _ => apply N.ltb_lt in H
         | H : (_ <? _) = false |- _ => apply N.ltb_ge in H
         | H : (_ <=? _) = true |- _ => apply N.leb_le in H
         | H : (_ <=? _) = false |- _ => apply N.leb_gt in H
         | H : (_ =? _) = true |- _ => apply N.eqb_eq in H
         | H : (_ =? _) = false |- _ => apply N.eqb_neq in H
         | H : (if ?x then _ else _) = false |- _ => destruct x eqn:?
         end.

Ltac decide_tests :=
  repeat match goal with
         | |- context [?a <? ?b] =>
             first [rewrite (proj2 (N.ltb_lt a b)) by lia
                   | rewrite (proj2 (N.ltb_ge a b)) by lia]
         | |- context [?a <=? ?b] =>
             first [rewrite (proj2 (N.leb_le a b)) by lia
                   | rewrite (proj2 (N.leb_gt a b)) by lia]
         end.

(** One character: the bytes the decoder consumed are the bytes the
    encoder produces, and only a one-byte sequence gives a character
    below 128. *)
Lemma utf8_next_encode (b0 : N) (t : bytes) (c : char) (n : nat) :
  utf8_next b0 t = Decoded c n ->
  encode_char c = Some (take n (b0 :: t)) /\
  (n <= length (b0 :: t))%nat /\ (0 < n)%nat /\
  (c < 128 -> c = b0).
Proof.
  unfold utf8_next.
  destruct (b0 <? 128) eqn:H0.
  { intros [= <- <-]. unfold encode_char. rewrite H0. simpl.
    repeat split; lia. }
  destruct (b0 <? 194) eqn:H1; [discriminate|].
  destruct (b0 <? 224) eqn:H2.
  { destruct t as [|b1 t]; [discriminate|].
    destruct (is_continuation b1) eqn:C1; [|discriminate].
    intros [= <- <-]. bool_hyps.
    assert (((b0 - 192) * 64 + (b1 - 128)) / 64 = b0 - 192) as Hd
      by (symmetry; apply (N.div_unique _ 64 _ (b1 - 128)); lia).
    assert (((b0 - 192) * 64 + (b1 - 128)) mod 64 = b1 - 128) as Hm
      by (symmetry; apply (N.mod_unique _ 64 (b0 - 192)); lia).
    unfold encode_char. decide_tests. rewrite Hd, Hm. simpl.
    repeat split; try lia. do 2 f_equal; [lia | f_equal; lia]. }
  destruct (b0 <? 240) eqn:H3.
  { destruct t as [|b1 [|b2 t]]; try discriminate.
    - destruct (negb _ || _); discriminate.
    - destruct (negb (is_continuation b1) || _) eqn:C1; [discriminate|].
      destruct (is_continuation b2) eqn:C2; [|discriminate].
      intros [= <- <-]. bool_hyps.
      all: set (c := (b0 - 224) * 4096 + (b1 - 128) * 64 + (b2 - 128)).
      all: assert (c / 4096 = b0 - 224) as Hd1
          by (symmetry;
              apply (N.div_unique _ 4096 _ ((b1 - 128) * 64 + (b2 - 128)));
              unfold c; lia).
      all: assert (c / 64 = (b0 - 224) * 64 + (b1 - 128)) as Hd2
          by (symmetry; apply (N.div_unique _ 64 _ (b2 - 128));
              unfold c; lia).
      all: assert (((b0 - 224) * 64 + (b1 - 128)) mod 64 = b1 - 128) as Hm2
          by (symmetry; apply (N.mod_unique _ 64 (b0 - 224)); lia).
      all: assert (c mod 64 = b2 - 128) as Hm
          by (symmetry;
              apply (N.mod_unique _ 64 ((b0 - 224) * 64 + (b1 - 128)));
              unfold c; lia).
      all: unfold encode_char; rewrite Hd1, Hd2, Hm2, Hm.
      all: assert (2048 <= c < 65536 /\ ~ (55296 <= c <= 57343)) as [Hr Hs]
          by (unfold c; lia).
      all: decide_tests.
      all: replace ((55296 <=? c) && (c <=? 57343)) with false
          by (symmetry; apply andb_false_iff;
              rewrite N.leb_gt, N.leb_gt; lia).
      all: simpl; repeat split; try lia.
      all: do 2 f_equal; [lia | f_equal; [lia | f_equal; lia]]. }
  destruct (b0 <? 245) eqn:H4; [|discriminate].
  destruct t as [|b1 [|b2 [|b3 t]]]; try discriminate.
  - destruct (negb _ || _); discriminate.
  - destruct (negb _ || _); [discriminate|].
    destruct (negb _); discriminate.
  - destruct (negb (is_continuation b1) || _) eqn:C1; [discriminate|].
    destruct (negb (is_continuation b2)) eqn:C2; [discriminate|].
    destruct (is_continuation b3) eqn:C3; [|discriminate].
    intros [= <- <-]. bool_hyps.
    all: set (c := (b0 - 240) * 262144 + (b1 - 128) * 4096
                   + (b2 - 128) * 64 + (b3 - 128)).
    all: assert (c / 262144 = b0 - 240) as Hd1
        by (symmetry;
            apply (N.div_unique _ 262144 _
                     ((b1 - 128) * 4096 + (b2 - 128) * 64 + (b3 - 128)));
            unfold c; lia).
    all: assert (c / 4096 = (b0 - 240) * 64 + (b1 - 128)) as Hd2
        by (symmetry;
            apply (N.div_unique _ 4096 _ ((b2 - 128) * 64 + (b3 - 128)));
            unfold c; lia).
    all: assert (c / 64 = (b0 - 240) * 4096 + (b1 - 128) * 64 + (b2 - 128))
        as Hd3
        by (symmetry; apply (N.div_unique _ 64 _ (b3 - 128));
            unfold c; lia).
    all: assert (((b0 - 240) * 64 + (b1 - 128)) mod 64 = b1 - 128) as Hm2
        by (symmetry; apply (N.mod_unique _ 64 (b0 - 240)); lia).
    all: assert (((b0 - 240) * 4096 + (b1 - 128) * 64 + (b2 - 128)) mod 64
                 = b2 - 128) as Hm3
        by (symmetry;
            apply (N.mod_unique _ 64 ((b0 - 240) * 64 + (b1 - 128))); lia).
    all: assert (c mod 64 = b3 - 128) as Hm
        by (symmetry;
            apply (N.mod_unique _ 64
                     ((b0 - 240) * 4096 + (b1 - 128) * 64 + (b2 - 128)));
            unfold c; lia).
    all: unfold encode_char; rewrite Hd1, Hd2, Hd3, Hm2, Hm3, Hm.
    all: assert (65536 <= c < 1114112) as Hr by (unfold c; lia).
    all: decide_tests.
    all: simpl; repeat split; try lia.
    all: do 2 f_equal; [lia | f_equal; [lia | f_equal; [lia | f_equal; lia]]].
Qed.

Lemma decode_strict_cons (b0 : N) (t : bytes) (s : str) :
  decode_utf8 Strict (b0 :: t) = Some s ->
  exists c n s',
    utf8_next b0 t = Decoded c n /\ s = c :: s' /\
    decode_utf8 Strict (drop n (b0 :: t)) = Some s'.
Proof.
  unfold decode_utf8. simpl decode_from.
  destruct (utf8_next b0 t) as [c n| |] eqn:E; try discriminate.
  destruct (utf8_next_encode _ _ _ _ E) as (_ & _ & Hn & _).
  rewrite decode_from_drop.
  destruct (decode_from Strict 0 (drop (pred n) t)) as [s'|] eqn:Es;
    [|discriminate].
  intros [= <-]. exists c, n, s'. repeat split.
  destruct n; [lia|]. exact Es.
Qed.

Lemma decode_encode (b : bytes) (s : str) :
  decode_utf8 Strict b = Some s -> encode_utf8 s = Some b.
Proof.
  remember (length b) as m eqn:Hm. revert b s Hm.
  induction m as [m IH] using lt_wf_ind. intros [|b0 t] s Hm.
  - intros [= <-]. reflexivity.
  - intros H. apply decode_strict_cons in H as (c & n & s' & E & -> & Hs).
    destruct (utf8_next_encode _ _ _ _ E) as (Hc & Hle & Hn & _).
    simpl. rewrite Hc.
    rewrite (IH (length (drop n (b0 :: t)))) with (b := drop n (b0 :: t))
                                                  (s := s'); try done.
    + rewrite take_drop. reflexivity.
    + rewrite Hm, length_drop. simpl in *. lia.
Qed.

(** A character below 128 in the decoded text is a byte of the input. *)
Lemma decode_low_chars (b : bytes) (s : str) (c : char) :
  decode_utf8 Strict b = Some s -> c ∈ s -> c < 128 -> c ∈ b.
Proof.
  remember (length b) as m eqn:Hm. revert b s Hm.
  induction m as [m IH] using lt_wf_ind. intros [|b0 t] s Hm.
  - intros [= <-] H. inversion H.
  - intros H Hin Hlow.
    apply decode_strict_cons in H as (c' & n & s' & E & -> & Hs).
    destruct (utf8_next_encode _ _ _ _ E) as (_ & Hle & Hn & Hc).
    apply elem_of_cons in Hin as [-> | Hin].
    + rewrite (Hc Hlow). left.
    + eapply (subseteq_drop n). eapply (IH _ _ _ s' eq_refl Hs Hin Hlow).
      Unshelve. rewrite Hm, length_drop. simpl in *. lia.
Qed.

Lemma encode_utf8_app (s1 s2 : str) :
  encode_utf8 (s1 ++ s2) =
  match encode_utf8 s1, encode_utf8 s2 with
  | Some b1, Some b2 => Some (b1 ++ b2)
  | _, _ => None
  end.
Proof.
  induction s1 as [|c s1 IH]; simpl.
  - destruct (encode_utf8 s2); reflexivity.
  - rewrite IH. destruct (encode_char c); [|reflexivity].
    destruct (encode_utf8 s1); [|reflexivity].
    destruct (encode_utf8 s2); [|reflexivity].
    rewrite app_assoc. reflexivity.
Qed.

Lemma universal_newlines_no_CR (s : str) :
  CR ∉ s -> universal_newlines s = s.
Proof.
  induction s as [|c t IH]; [reflexivity|]. intros H.
  apply not_elem_of_cons in H as [Hc Ht]. simpl.
  destruct (c =? CR) eqn:E; [apply N.eqb_eq in E; congruence|].
  rewrite (IH Ht). reflexivity.
Qed.

(** A file without carriage return is read as the text it encodes, and
    that text is written back as the same bytes. *)
Lemma read_write_same_bytes (b : bytes) (s : str) :
  decode_utf8 Strict b = Some s -> CR ∉ b ->
  encode_utf8 (universal_newlines s) = Some b.
Proof.
  intros Hd Hcr. rewrite universal_newlines_no_CR.
  - apply decode_encode. exact Hd.
  - intros Hin. apply Hcr. apply (decode_low_chars _ _ _ Hd Hin).
    reflexivity.
Qed.

(** ** The bundle builder *)

(** A newline ends a line whatever follows: the lines of a text cut after
    a newline are the lines of the two parts. *)
Lemma splitlines_from_app_NL (s1 s2 cur : str) :
  splitlines_from cur (s1 ++ NL :: s2)
  = splitlines_from cur (s1 ++ [NL]) ++ splitlines_from [] s2.
Proof.
  remember (length s1) as m eqn:Hm. revert s1 cur Hm.
  induction m as [m IH] using lt_wf_ind. intros [|c t] cur Hm.
  - simpl. destruct s2; reflexivity.
  - simpl. destruct (is_linebreak c).
    + destruct t as [|d t']; simpl.
      * destruct (c =? CR); simpl.
        -- reflexivity.
        -- f_equal. destruct s2; reflexivity.
      * f_equal. destruct ((c =? CR) && (d =? NL)).
        -- apply (IH (length t')); [simpl in Hm; lia | reflexivity].
        -- apply (IH (length (d :: t'))) with (s1 := d :: t');
             [simpl in Hm |- *; lia | reflexivity].
    + apply (IH (length t)); [simpl in Hm; lia | reflexivity].
Qed.

(** After a root store that ends with a newline, the newline the builder
    adds is one empty line between the lines of the root store and the
    lines of what follows. *)
Lemma one_blank_line (r0 rest : str) :
  splitlines ((r0 ++ [NL]) ++ [NL] ++ rest)
  = splitlines (r0 ++ [NL]) ++ [[]] ++ splitlines rest.
Proof.
  unfold splitlines. rewrite <- app_assoc. simpl.
  rewrite splitlines_from_app_NL. f_equal.
  destruct rest; reflexivity.
Qed.




(** * Further properties of the functions *)

(** ** What the leaf fetcher and the locator return *)

Lemma search_block_Some (text g : str) :
  re_search match_pem_block text = Some g ->
  exists pre body post,
    first_block text pre body post /\
    g = BEGIN_CERTIFICATE ++ body ++ END_CERTIFICATE.
Proof.
  intros H. apply re_search_Some in H as (pre & suf & -> & Hm & Hleft).
  apply match_pem_block_Some in Hm as (body & post & -> & -> & Hshort).
  exists pre, body, post. split; [|reflexivity]. split; [reflexivity|].
  intros pre' body' post' H'. split.
  - destruct (decide (length pre <= length pre')%nat) as [|Hlt];
      [assumption | exfalso].
    assert (match_pem_block (BEGIN_CERTIFICATE ++ body' ++ END_CERTIFICATE
                             ++ post') = None) as Hnone
      by (apply (Hleft pre'); [exact H' | lia]).
    rewrite match_pem_block_None in Hnone.
    exact (Hnone body' post' eq_refl).
  - intros Hlen. apply app_inj_1 in H' as [_ H']; [|exact Hlen].
    exact (Hshort _ _ H').
Qed.

Lemma drop_while_head (p : char -> bool) (s : str) :
  match drop_while p s with
  | [] => True
  | c :: _ => p c = false
  end.
Proof.
  induction s as [|c t IH]; simpl; [exact I|].
  destruct (p c) eqn:E; [exact IH | exact E].
Qed.

Lemma non_space_Forall (g : str) :
  Forall (fun c => non_space c = true) g ->
  Forall (fun c => is_space c = false) g.
Proof.
  intros H. eapply Forall_impl; [exact H|]. intros c. unfold non_space.
  destruct (is_space c); [discriminate | reflexivity].
Qed.

(** Where the pattern of the locator matches, in full: the label, a
    non-empty run without white space, and then white space or the end. *)
Lemma match_ca_issuers_shape (s g : str) :
  match_ca_issuers s = Some g ->
  g <> [] /\ Forall (fun c => is_space c = false) g /\
  exists rest,
    s = CA_ISSUERS_URI ++ g ++ rest /\
    match rest with [] => True | c :: _ => is_space c = true end.
Proof.
  unfold match_ca_issuers.
  destruct (starts_with CA_ISSUERS_URI s) eqn:E; [|discriminate].
  apply starts_with_spec in E as [r ->]. rewrite drop_length_app.
  pose proof (take_while_Forall non_space r) as HF.
  pose proof (take_drop_while non_space r) as Hr.
  pose proof (drop_while_head non_space r) as Hd.
  destruct (take_while non_space r) as [|c g'] eqn:Eg; [discriminate|].
  intros [= <-]. split; [discriminate|]. split.
  - apply non_space_Forall. exact HF.
  - exists (drop_while non_space r). split; [congruence|].
    destruct (drop_while non_space r) as [|d ?]; [exact I|].
    unfold non_space in Hd. destruct (is_space d); [reflexivity|discriminate].
Qed.

(** X1.  Whenever the leaf fetcher returns, [openssl s_client] has ended
    with status 0, its output holds a certificate block, and the leaf
    artifact is the first such block followed by a newline, encoded as
    UTF-8; no other file has changed. *)
Theorem fetch_leaf_cert_returns (env : Env) (w w' : world) :
  fetch_leaf_cert env w = (Return tt, w') ->
  returncode (s_client_showcerts env) = 0%Z /\
  exists pre body post b,
    first_block (stdout (s_client_showcerts env)) pre body post /\
    encode_utf8 (BEGIN_CERTIFICATE ++ body ++ END_CERTIFICATE ++ [NL])
    = Some b /\
    disk w' = store_file LEAF_PEM b (disk w).
Proof.
  rewrite fetch_leaf_cert_run. cbv zeta.
  destruct (Z.eqb _ 0) eqn:Hrc; [|discriminate]. apply Z.eqb_eq in Hrc.
  destruct (re_search _ _) as [g|] eqn:Hs; [|discriminate].
  apply search_block_Some in Hs as (pre & body & post & Hfirst & ->).
  destruct (encode_utf8 _) as [b|] eqn:Hb; [|discriminate].
  intros [= <-]. split; [exact Hrc|].
  exists pre, body, post, b. split; [exact Hfirst|]. split; [|reflexivity].
  rewrite <- Hb, <- !app_assoc. reflexivity.
Qed.

(** X2.  Whenever the locator returns a URL, [openssl x509] has ended with
    status 0 and the URL is a non-empty text without white space that
    stands in the dump right after the label [CA Issuers - URI:] and is
    followed by white space or by the end of the dump; no earlier place of
    the dump has the label followed by a non-blank character.  The locator
    changes no file. *)
Theorem extract_aia_issuer_url_returns (env : Env) (w w' : world)
    (url : str) :
  extract_aia_issuer_url env w = (Return url, w') ->
  let p := x509_text env (leaf_pem (disk w)) in
  returncode p = 0%Z /\ disk w' = disk w /\
  url <> [] /\ Forall (fun c => is_space c = false) url /\
  exists pre rest,
    stdout p = pre ++ CA_ISSUERS_URI ++ url ++ rest /\
    match rest with [] => True | c :: _ => is_space c = true end /\
    forall pre' c post',
      stdout p = pre' ++ CA_ISSUERS_URI ++ c :: post' ->
      is_space c = false -> (length pre <= length pre')%nat.
Proof.
  rewrite extract_aia_issuer_url_run. cbv zeta.
  destruct (Z.eqb _ 0) eqn:Hrc; [|discriminate]. apply Z.eqb_eq in Hrc.
  destruct (re_search _ _) as [g|] eqn:Hs; [|discriminate].
  intros [= -> <-]. split; [exact Hrc|]. split; [reflexivity|].
  apply re_search_Some in Hs as (pre & suf & Htext & Hm & Hleft).
  apply match_ca_issuers_shape in Hm as (Hne & Hurl & rest & -> & Hrest).
  split; [exact Hne|]. split; [exact Hurl|].
  exists pre, rest. split; [exact Htext|]. split; [exact Hrest|].
  intros pre' c post' H' Hc.
  destruct (decide (length pre <= length pre')%nat) as [|Hlt];
    [assumption | exfalso].
  assert (match_ca_issuers (CA_ISSUERS_URI ++ c :: post') = None) as Hnone
    by (apply (Hleft pre'); [exact H' | lia]).
  unfold match_ca_issuers in Hnone.
  rewrite starts_with_app, drop_length_app in Hnone. simpl in Hnone.
  unfold non_space in Hnone at 1. rewrite Hc in Hnone. discriminate.
Qed.

(** ** What the issuer fetcher returns *)

(** X3.  Whenever the issuer fetcher returns, [curl] has ended with status
    0 and the downloaded-issuer file exists and has at least 200 bytes.
    The file is what [curl] saved, or, when [curl] saved nothing, the file
    an earlier run had left there; the other three files are untouched. *)
Theorem download_issuer_returns (env : Env) (url : str) (w w' : world) :
  download_issuer env url w = (Return tt, w') ->
  fst (curl env url) = 0%Z /\
  (exists b,
      issuer_bin (disk w') = Some b /\ (200 <= length b)%nat /\
      (snd (curl env url) = Some b \/
       snd (curl env url) = None /\ issuer_bin (disk w) = Some b)) /\
  leaf_pem (disk w') = leaf_pem (disk w) /\
  issuer_pem (disk w') = issuer_pem (disk w) /\
  bundle_pem (disk w') = bundle_pem (disk w).
Proof.
  intros H.
  pose proof (download_issuer_frame env url w) as (Fl & Fp & Fb).
  pose proof (download_issuer_disk env url w) as Hd.
  rewrite H in Fl, Fp, Fb, Hd. simpl in Fl, Fp, Fb, Hd.
  revert H. rewrite download_issuer_run. cbv zeta. rewrite <- Hd.
  destruct (Z.eqb _ 0) eqn:Hrc; [|discriminate]. apply Z.eqb_eq in Hrc.
  destruct (issuer_bin (disk w')) as [b|] eqn:Hbin; [|discriminate].
  destruct (length b <? 200)%nat eqn:Hlen; [discriminate|].
  apply Nat.ltb_ge in Hlen. intros _.
  split; [exact Hrc|]. split; [|auto].
  exists b. split; [reflexivity|]. split; [exact Hlen|].
  rewrite Hd in Hbin. unfold saved_disk in Hbin.
  destruct (snd (curl env url)) as [c|]; simpl in Hbin.
  - left. congruence.
  - right. auto.
Qed.

(** ** Lenient decoding *)

(** With [errors="ignore"] decoding always gives a text. *)
Lemma decode_ignore_total (k : nat) (s : bytes) :
  exists t, decode_from Ignore k s = Some t.
Proof.
  revert k. induction s as [|b0 s IH]; intros k; simpl; [eauto|].
  destruct k as [|k]; [|apply IH].
  destruct (utf8_next b0 s) as [c n|n|]; [| apply IH | eauto].
  destruct (IH (pred n)) as [t ->]. simpl. eauto.
Qed.

(** The bytes the decoder passes over after the first byte of a sequence
    are continuation bytes, hence not ASCII. *)
Lemma utf8_next_passes (b0 : N) (t : bytes) :
  match utf8_next b0 t with
  | Decoded _ n | Invalid n => Forall (fun b => 128 <= b) (take (pred n) t)
  | Truncated => Forall (fun b => 128 <= b) t
  end.
Proof.
  assert (forall b, is_continuation b = true -> 128 <= b) as Hc
    by (intros b H; unfold is_continuation in H;
        apply andb_true_iff in H as [H _]; apply N.leb_le in H; exact H).
  unfold utf8_next.
  destruct (b0 <? 128); [constructor|].
  destruct (b0 <? 194); [constructor|].
  destruct (b0 <? 224).
  { destruct t as [|b1 t]; [constructor|].
    destruct (is_continuation b1) eqn:C1; simpl; auto. }
  destruct (b0 <? 240).
  { destruct t as [|b1 t]; [constructor|].
    destruct (is_continuation b1) eqn:C1; simpl; [|constructor].
    destruct (if b1 <? 160 then b0 =? 224 else b0 =? 237); [constructor|].
    destruct t as [|b2 t]; [auto|].
    destruct (is_continuation b2) eqn:C2; simpl; auto. }
  destruct (b0 <? 245); [|constructor].
  destruct t as [|b1 t]; [constructor|].
  destruct (is_continuation b1) eqn:C1; simpl; [|constructor].
  destruct (if b1 <? 144 then b0 =? 240 else b0 =? 244); [constructor|].
  destruct t as [|b2 t]; [auto|].
  destruct (is_continuation b2) eqn:C2; simpl; [|auto].
  destruct t as [|b3 t]; [auto|].
  destruct (is_continuation b3) eqn:C3; simpl; auto.
Qed.

Lemma contains_cons (X s : list N) (c : N) :
  contains X s = true -> contains X (c :: s) = true.
Proof. intros H. simpl. rewrite H. apply orb_true_r. Qed.

Lemma contains_app_here (X post : list N) : contains X (X ++ post) = true.
Proof. apply contains_spec. exists [], post. reflexivity. Qed.

(** ASCII bytes decode to themselves. *)
Lemma decode_ignore_ascii (X post : bytes) :
  Forall (fun b => b < 128) X ->
  exists t, decode_from Ignore 0 (X ++ post) = Some (X ++ t).
Proof.
  induction 1 as [|b X Hb _ [t IH]]; simpl.
  - destruct (decode_ignore_total 0 post) as [t Ht]. exists t. exact Ht.
  - unfold utf8_next. rewrite (proj2 (N.ltb_lt b 128) Hb). simpl.
    rewrite IH. simpl. eauto.
Qed.

(** An ASCII text found in the bytes is found in the lenient decoding. *)
Lemma decode_ignore_keeps_ascii (X pre post : bytes) (k : nat) :
  X <> [] -> Forall (fun b => b < 128) X ->
  Forall (fun b => 128 <= b) (take k (pre ++ X ++ post)) ->
  exists t, decode_from Ignore k (pre ++ X ++ post) = Some t /\
            contains X t = true.
Proof.
  intros Hne HX. revert k. induction pre as [|b0 pre IH]; intros k Hk.
  - destruct X as [|x0 X']; [contradiction|].
    destruct k as [|k].
    + destruct (decode_ignore_ascii (x0 :: X') post HX) as [t Ht].
      exists ((x0 :: X') ++ t). split; [exact Ht|]. apply contains_app_here.
    + exfalso. simpl in Hk. inversion Hk as [|? ? Hx _]; subst.
      inversion HX as [|? ? Hlow _]; subst. lia.
  - simpl app. destruct k as [|k].
    + simpl decode_from.
      pose proof (utf8_next_passes b0 (pre ++ X ++ post)) as Hp.
      destruct (utf8_next b0 (pre ++ X ++ post)) as [c n|n|].
      * destruct (IH _ Hp) as (t & -> & Ht). exists (c :: t).
        split; [reflexivity|]. apply contains_cons. exact Ht.
      * destruct (IH _ Hp) as (t & -> & Ht). eauto.
      * exfalso. destruct X as [|x0 X']; [contradiction|].
        apply Forall_app in Hp as [_ Hp].
        inversion Hp as [|? ? Hx _]; subst.
        inversion HX as [|? ? Hlow _]; subst. lia.
    + simpl decode_from. apply IH. simpl in Hk.
      inversion Hk; assumption.
Qed.

(** Reading newlines in does not break a text without line ends. *)
Lemma universal_newlines_plain (X rest : str) :
  CR ∉ X -> universal_newlines (X ++ rest) = X ++ universal_newlines rest.
Proof.
  induction X as [|c X IH]; [reflexivity|]. intros H.
  apply not_elem_of_cons in H as [Hc HX]. simpl.
  destruct (c =? CR) eqn:E; [apply N.eqb_eq in E; congruence|].
  rewrite (IH HX). reflexivity.
Qed.

Lemma universal_newlines_unfold (c : char) (t : str) :
  universal_newlines (c :: t) =
  if c =? CR then
    NL :: match t with
          | [] => []
          | d :: t' =>
              if d =? NL then universal_newlines t' else universal_newlines t
          end
  else c :: universal_newlines t.
Proof. reflexivity. Qed.

Lemma universal_newlines_keeps (X a b : str) :
  CR ∉ X -> NL ∉ X -> X <> [] ->
  contains X (universal_newlines (a ++ X ++ b)) = true.
Proof.
  intros Hcr Hnl Hne.
  remember (length a) as m eqn:Hm. revert a Hm.
  induction m as [m IH] using lt_wf_ind. intros [|c t] Hm.
  - cbn [app]. rewrite universal_newlines_plain by exact Hcr.
    apply contains_app_here.
  - cbn [app]. rewrite universal_newlines_unfold. destruct (c =? CR).
    + apply contains_cons. destruct t as [|d t']; cbn [app].
      * destruct X as [|x0 X']; [contradiction|]. cbn [app].
        destruct (x0 =? NL) eqn:E.
        -- apply N.eqb_eq in E. subst x0. exfalso. apply Hnl. left.
        -- apply (IH 0%nat) with (a := []); [simpl in Hm; lia | reflexivity].
      * destruct (d =? NL).
        -- apply (IH (length t')); [simpl in Hm; lia | reflexivity].
        -- apply (IH (length (d :: t'))) with (a := d :: t');
             [simpl in Hm |- *; lia | reflexivity].
    + apply contains_cons.
      apply (IH (length t)); [simpl in Hm; lia | reflexivity].
Qed.

(** The marker the normalizer looks for in the bytes is found again by
    anyone who reads the same bytes as text, leniently. *)
Lemma marker_survives_reading (data : bytes) :
  contains BEGIN_CERTIFICATE data = true ->
  exists text,
    decode_utf8 Ignore data = Some text /\
    contains (lit "BEGIN CERTIFICATE") (universal_newlines text) = true.
Proof.
  intros H. apply contains_spec in H as (pre & post & ->).
  destruct (decode_ignore_keeps_ascii
              (lit "BEGIN CERTIFICATE") (pre ++ lit "-----")
              (lit "-----" ++ post) 0) as (text & Hd & Hc).
  - discriminate.
  - apply (bool_decide_unpack
             (Forall (fun b => b < 128) (lit "BEGIN CERTIFICATE"))).
    vm_compute. exact I.
  - constructor.
  - exists text. split.
    + unfold decode_utf8. rewrite <- Hd. f_equal.
      rewrite <- !app_assoc. reflexivity.
    + apply contains_spec in Hc as (a & b & ->).
      apply universal_newlines_keeps.
      * apply (bool_decide_unpack (CR ∉ lit "BEGIN CERTIFICATE")).
        vm_compute. exact I.
      * apply (bool_decide_unpack (NL ∉ lit "BEGIN CERTIFICATE")).
        vm_compute. exact I.
      * discriminate.
Qed.

(** ** What the normalizer returns, and how it fails *)

(** X5.  Whenever the normalizer returns, the issuer PEM artifact exists
    and its text, read leniently, contains [BEGIN CERTIFICATE]: in the
    PEM branch because the bytes are the downloaded bytes, which hold the
    full begin marker, in the DER branch because the function has checked
    it after a conversion that ended with status 0.  The leaf, the
    download and the bundle are untouched. *)
Theorem issuer_to_pem_returns (env : Env) (w w' : world) :
  issuer_to_pem env w = (Return tt, w') ->
  (exists data ib text,
      issuer_bin (disk w) = Some data /\
      issuer_pem (disk w') = Some ib /\
      decode_utf8 Ignore ib = Some text /\
      contains (lit "BEGIN CERTIFICATE") (universal_newlines text) = true /\
      (contains BEGIN_CERTIFICATE data = true -> ib = data) /\
      (contains BEGIN_CERTIFICATE data = false ->
       fst (x509_inform_DER env (Some data)) = 0%Z)) /\
  leaf_pem (disk w') = leaf_pem (disk w) /\
  issuer_bin (disk w') = issuer_bin (disk w) /\
  bundle_pem (disk w') = bundle_pem (disk w).
Proof.
  intros H. pose proof (issuer_to_pem_frame env w) as F.
  rewrite H in F. simpl in F. split; [|exact F]. clear F.
  revert H. rewrite issuer_to_pem_run. cbv zeta.
  destruct (issuer_bin (disk w)) as [data|]; [|discriminate].
  destruct (contains BEGIN_CERTIFICATE data) eqn:Hm.
  - intros [= <-]. destruct (marker_survives_reading _ Hm) as (text & Hd & Hc).
    exists data, data, text.
    split; [reflexivity|]. split; [reflexivity|]. split; [exact Hd|].
    split; [exact Hc|]. split; [reflexivity | congruence].
  - destruct (Z.eqb _ 0) eqn:Hrc; [|discriminate]. apply Z.eqb_eq in Hrc.
    destruct (issuer_pem _) as [ib|] eqn:Hpem; [|discriminate].
    destruct (decode_utf8 Ignore ib) as [text|] eqn:Hd; [|discriminate].
    destruct (contains (lit "BEGIN CERTIFICATE") (universal_newlines text))
      eqn:Hc; [|discriminate].
    intros [= <-]. exists data, ib, text.
    split; [reflexivity|]. split; [exact Hpem|]. split; [exact Hd|].
    split; [exact Hc|]. split; [congruence | intros _; exact Hrc].
Qed.

(** X4.  The normalizer fails in three ways only.  Without a downloaded
    file it raises [FileNotFoundError] and changes nothing.  Otherwise the
    download lacks the begin marker (a download with the marker never
    fails), and either the converter ended with a non-zero status, which
    is a [CalledProcessError], or it ended with 0 and the issuer PEM file
    is missing or, read leniently, lacks [BEGIN CERTIFICATE], which is the
    [RuntimeError] of the conversion.  Reading with [errors="ignore"]
    cannot fail, so that no [UnicodeDecodeError] comes out of this
    function. *)
Theorem issuer_to_pem_failures (env : Env) (w w' : world) (e : exn) :
  issuer_to_pem env w = (Raise e, w') ->
  (e = FileNotFoundError /\ issuer_bin (disk w) = None /\ disk w' = disk w)
  \/
  (exists data,
      issuer_bin (disk w) = Some data /\
      contains BEGIN_CERTIFICATE data = false /\
      let rc := fst (x509_inform_DER env (Some data)) in
      (rc <> 0%Z /\ e = CalledProcessError openssl_x509_inform_DER rc)
      \/
      (rc = 0%Z /\ e = RuntimeError MSG_CONVERT /\
       (issuer_pem (disk w') = None \/
        exists ib text,
          issuer_pem (disk w') = Some ib /\
          decode_utf8 Ignore ib = Some text /\
          contains (lit "BEGIN CERTIFICATE") (universal_newlines text)
          = false))).
Proof.
  rewrite issuer_to_pem_run. cbv zeta.
  destruct (issuer_bin (disk w)) as [data|].
  2:{ intros [= <- <-]. left. auto. }
  destruct (contains BEGIN_CERTIFICATE data) eqn:Hm; [discriminate|].
  intros H. right. exists data. split; [reflexivity|]. split; [exact Hm|].
  revert H. destruct (Z.eqb _ 0) eqn:Hrc.
  - apply Z.eqb_eq in Hrc. intros H. right. split; [exact Hrc|].
    revert H. destruct (issuer_pem _) as [ib|] eqn:Hpem.
    + destruct (decode_ignore_total 0 ib) as [text Hd].
      unfold decode_utf8. rewrite Hd.
      destruct (contains (lit "BEGIN CERTIFICATE") (universal_newlines text))
        eqn:Hc; [discriminate|].
      intros [= <- <-]. split; [reflexivity|]. right.
      exists ib, text. auto.
    + intros [= <- <-]. split; [reflexivity|]. left. exact Hpem.
  - apply Z.eqb_neq in Hrc. intros [= <- _]. left. auto.
Qed.

(** ** When the bundle builder returns *)

Lemma encode_utf8_cons_Some (c : char) (t : str) :
  is_Some (encode_utf8 (c :: t)) <->
  is_Some (encode_char c) /\ is_Some (encode_utf8 t).
Proof.
  simpl. destruct (encode_char c), (encode_utf8 t); split;
    try (intros [? ?]); try (intros [x Hx]; discriminate Hx);
    try (split; eauto); eauto;
    match goal with H : is_Some None |- _ => destruct H; discriminate end.
Qed.

Lemma encode_utf8_app_Some (a b : str) :
  is_Some (encode_utf8 (a ++ b)) <->
  is_Some (encode_utf8 a) /\ is_Some (encode_utf8 b).
Proof.
  rewrite encode_utf8_app.
  destruct (encode_utf8 a), (encode_utf8 b); split;
    try (intros [? ?]); try (intros [x Hx]; discriminate Hx);
    try (split; eauto); eauto;
    match goal with H : is_Some None |- _ => destruct H; discriminate end.
Qed.

(** A text that can be encoded can still be encoded once its line ends
    have been turned into newlines. *)
Lemma universal_newlines_encodable (s : str) :
  is_Some (encode_utf8 s) -> is_Some (encode_utf8 (universal_newlines s)).
Proof.
  remember (length s) as m eqn:Hm. revert s Hm.
  induction m as [m IH] using lt_wf_ind. intros [|c t] Hm H; [exact H|].
  apply encode_utf8_cons_Some in H as [Hc Ht].
  rewrite universal_newlines_unfold. destruct (c =? CR).
  - apply encode_utf8_cons_Some. split; [eexists; reflexivity|].
    destruct t as [|d t']; [eexists; reflexivity|].
    destruct (d =? NL).
    + apply encode_utf8_cons_Some in Ht as [_ Ht].
      apply (IH (length t')); [simpl in Hm; lia | reflexivity | exact Ht].
    + apply (IH (length (d :: t')));
        [simpl in Hm |- *; lia | reflexivity | exact Ht].
  - apply encode_utf8_cons_Some. split; [exact Hc|].
    apply (IH (length t)); [simpl in Hm; lia | reflexivity | exact Ht].
Qed.

(** What [read_text] returns can always be written back, also with
    newlines around it. *)
Lemma bundle_text_encodable (rb ib : bytes) (roots issuer : str) :
  decode_utf8 Strict rb = Some roots ->
  decode_utf8 Strict ib = Some issuer ->
  is_Some (encode_utf8 (universal_newlines roots ++ [NL]
                        ++ universal_newlines issuer ++ [NL])).
Proof.
  intros Hr Hi.
  assert (is_Some (encode_utf8 [NL])) as Hnl by (eexists; reflexivity).
  repeat (apply encode_utf8_app_Some; split); try exact Hnl.
  - apply universal_newlines_encodable. rewrite (decode_encode _ _ Hr). eauto.
  - apply universal_newlines_encodable. rewrite (decode_encode _ _ Hi). eauto.
Qed.


(** ** A PEM download that is not UTF-8 *)

(** X7.  The normalizer looks at bytes, the builder reads text.  A
    download that holds the begin marker but is not valid UTF-8 passes
    the normalizer unchanged and then makes the builder, whose root store
    is readable, raise [UnicodeDecodeError]; no bundle is written. *)
Theorem non_utf8_pem_stops_the_builder
    (env : Env) (w : world) (data rb : bytes) (roots : str) :
  issuer_bin (disk w) = Some data ->
  contains BEGIN_CERTIFICATE data = true ->
  decode_utf8 Strict data = None ->
  certifi_where env = Some rb ->
  decode_utf8 Strict rb = Some roots ->
  exists w1 w2,
    issuer_to_pem env w = (Return tt, w1) /\
    issuer_pem (disk w1) = Some data /\
    build_bundle env w1 = (Raise UnicodeDecodeError, w2) /\
    bundle_pem (disk w2) = bundle_pem (disk w).
Proof.
  intros Hbin Hm Hbad Hcert Hroots.
  eexists; eexists. split; [|split; [|split]].
  - rewrite issuer_to_pem_run, Hbin, Hm. cbv zeta. reflexivity.
  - reflexivity.
  - rewrite build_bundle_run, Hcert, Hroots. cbv zeta.
    cbn [disk store_file issuer_pem]. rewrite Hbad. reflexivity.
  - reflexivity.
Qed.

(** The Latin-1 download of the samples. *)
Lemma non_utf8_pem_sample :
  exists w1 w2,
    issuer_to_pem sample_env world_with_latin1_issuer = (Return tt, w1) /\
    issuer_pem (disk w1) = Some latin1_issuer /\
    build_bundle sample_env w1 = (Raise UnicodeDecodeError, w2) /\
    bundle_pem (disk w2) = bundle_pem (disk world_with_latin1_issuer).
Proof.
  apply (non_utf8_pem_stops_the_builder sample_env world_with_latin1_issuer
           latin1_issuer sample_roots sample_roots);
    vm_compute; reflexivity.
Defined.

(** ** A run that succeeds *)

Lemma fetch_leaf_cert_ok (env : Env) (w w' : world) :
  fetch_leaf_cert env w = (Return tt, w') -> is_Some (leaf_pem (disk w')).
Proof.
  rewrite fetch_leaf_cert_run. cbv zeta.
  destruct (Z.eqb _ 0); [|discriminate].
  destruct (re_search _ _); [|discriminate].
  destruct (encode_utf8 _); [|discriminate].
  intros [= <-]. simpl. eauto.
Qed.

Lemma extract_aia_issuer_url_ok (env : Env) (w w' : world) (url : str) :
  extract_aia_issuer_url env w = (Return url, w') ->
  disk w' = disk w /\
  re_search match_ca_issuers (stdout (x509_text env (leaf_pem (disk w))))
  = Some url.
Proof.
  rewrite extract_aia_issuer_url_run. cbv zeta.
  destruct (Z.eqb _ 0); [|discriminate].
  destruct (re_search _ _); [|discriminate].
  intros [= -> <-]. auto.
Qed.

Lemma download_issuer_ok (env : Env) (url : str) (w w' : world) :
  download_issuer env url w = (Return tt, w') ->
  exists data, issuer_bin (disk w') = Some data /\ (200 <= length data)%nat.
Proof.
  intros H. pose proof (download_issuer_disk env url w) as Hd.
  rewrite H in Hd. simpl in Hd. revert H.
  rewrite download_issuer_run. cbv zeta. rewrite <- Hd.
  destruct (Z.eqb _ 0); [|discriminate].
  destruct (issuer_bin (disk w')) as [b|]; [|discriminate].
  destruct (length b <? 200)%nat eqn:Hlen; [discriminate|].
  apply Nat.ltb_ge in Hlen. eauto.
Qed.

Lemma issuer_to_pem_ok (env : Env) (w w' : world) :
  issuer_to_pem env w = (Return tt, w') -> is_Some (issuer_pem (disk w')).
Proof.
  rewrite issuer_to_pem_run. cbv zeta.
  destruct (issuer_bin (disk w)) as [data|]; [|discriminate].
  destruct (contains BEGIN_CERTIFICATE data).
  - intros [= <-]. simpl. eauto.
  - destruct (Z.eqb _ 0); [|discriminate].
    destruct (issuer_pem _) as [b|] eqn:Hpem; [|discriminate].
    destruct (decode_utf8 Ignore b); [|discriminate].
    destruct (contains _ _); [|discriminate].
    intros [= <-]. simpl. rewrite Hpem. eauto.
Qed.

Lemma verify_bundle_ok (env : Env) (w w' : world) :
  verify_bundle env w = (Return tt, w') ->
  disk w' = disk w /\
  contains VERIFY_OK (last_lines (s_client_CAfile env (bundle_pem (disk w))))
  = true.
Proof.
  rewrite verify_bundle_run. cbv zeta.
  destruct (contains VERIFY_OK _) eqn:Hc; [|discriminate].
  intros [= <-]. auto.
Qed.

Lemma download_issuer_world (env : Env) (url : str) (w : world) :
  snd (download_issuer env url w)
  = ran_world f_download_issuer (curl_L_o url)
              (saved_disk ISSUER_BIN (snd (curl env url)) (disk w)) w.
Proof.
  rewrite download_issuer_run. cbv zeta.
  destruct (Z.eqb _ 0); [|reflexivity].
  destruct (issuer_bin _) as [b|]; [|reflexivity].
  destruct (length b <? 200)%nat; reflexivity.
Qed.

(** X8.  When [main] returns, it has entered the six functions in the
    order of the script and then printed its report, which is the last
    event.  The four artifacts exist; the download has at least 200
    bytes; the URL given to [curl] is the one the locator finds in the
    dump of the leaf that is on disk; and the bundle on disk is the very
    file the verifying client was given and accepted: its last lines
    carry the success phrase. *)
Theorem main_returns (env : Env) (w w' : world) :
  main env w = (Return tt, w') ->
  exists evs leaf data ib b url,
    log w' = log w ++ evs ++ [PrintBundleReady] /\
    entered evs = call_order /\
    (PrintBundleReady ∉ evs) /\
    (Exec (curl_L_o url) ∈ evs) /\
    disk w' = Files (Some leaf) (Some data) (Some ib) (Some b) /\
    (200 <= length data)%nat /\
    re_search match_ca_issuers (stdout (x509_text env (Some leaf)))
    = Some url /\
    contains VERIFY_OK (last_lines (s_client_CAfile env (Some b))) = true.
Proof.
  rewrite main_run.
  pose proof (fetch_leaf_cert_log env w) as L1.
  pose proof (fetch_leaf_cert_frame env w) as (F1a & F1b & F1c).
  destruct (fetch_leaf_cert env w) as [[[]|e1] w1] eqn:E1; [|discriminate].
  simpl in L1, F1a, F1b, F1c.
  apply fetch_leaf_cert_ok in E1 as [leaf Hleaf].
  pose proof (extract_aia_issuer_url_log env w1) as L2.
  destruct (extract_aia_issuer_url env w1) as [[url|e2] w2] eqn:E2;
    [|discriminate].
  simpl in L2. apply extract_aia_issuer_url_ok in E2 as [D2 Hurl].
  pose proof (download_issuer_log env url w2) as L3.
  pose proof (download_issuer_frame env url w2) as (F3a & F3b & F3c).
  pose proof (download_issuer_world env url w2) as W3.
  destruct (download_issuer env url w2) as [[[]|e3] w3] eqn:E3;
    [|discriminate].
  simpl in L3, F3a, F3b, F3c, W3.
  apply download_issuer_ok in E3 as (data & Hdata & Hlen).
  pose proof (issuer_to_pem_log env w3) as L4.
  pose proof (issuer_to_pem_frame env w3) as (F4a & F4b & F4c).
  destruct (issuer_to_pem env w3) as [[[]|e4] w4] eqn:E4; [|discriminate].
  simpl in L4, F4a, F4b, F4c. apply issuer_to_pem_ok in E4 as [ib Hib].
  pose proof (build_bundle_log env w4) as L5.
  pose proof (build_bundle_disk env w4) as F5.
  destruct (build_bundle env w4) as [[[]|e5] w5] eqn:E5; [|discriminate].
  simpl in L5. destruct F5 as [b F5].
  pose proof (verify_bundle_log env w5) as L6.
  destruct (verify_bundle env w5) as [[[]|e6] w6] eqn:E6; [|discriminate].
  simpl in L6. apply verify_bundle_ok in E6 as [D6 Hok].
  intros [= <-].
  destruct L1 as (v1 & Hl1 & He1 & Hp1). destruct L2 as (v2 & Hl2 & He2 & Hp2).
  destruct L3 as (v3 & Hl3 & He3 & Hp3). destruct L4 as (v4 & Hl4 & He4 & Hp4).
  destruct L5 as (v5 & Hl5 & He5 & Hp5). destruct L6 as (v6 & Hl6 & He6 & Hp6).
  assert (v3 = [Enter f_download_issuer; Exec (curl_L_o url)]) as Hv3.
  { rewrite W3 in Hl3. unfold ran_world in Hl3. simpl in Hl3.
    apply app_inv_head in Hl3. congruence. }
  exists (v1 ++ v2 ++ v3 ++ v4 ++ v5 ++ v6), leaf, data, ib, b, url.
  cbn [log disk]. split.
  { rewrite Hl6, Hl5, Hl4, Hl3, Hl2, Hl1, <- !app_assoc. reflexivity. }
  split.
  { rewrite !entered_app, He1, He2, He3, He4, He5, He6. reflexivity. }
  split.
  { rewrite !elem_of_app. tauto. }
  split.
  { rewrite !elem_of_app, Hv3. right; right; left. right; left. }
  split.
  { rewrite D6, F5. unfold store_file. f_equal; congruence. }
  split; [exact Hlen|]. split.
  - rewrite <- Hurl. do 3 f_equal. congruence.
  - rewrite F5 in Hok. exact Hok.
Qed.

(** ** Nothing is ever removed *)

Lemma keeps_files_refl (d : files) : keeps_files d d.
Proof. intros p H. exact H. Qed.

Lemma keeps_files_trans (d1 d2 d3 : files) :
  keeps_files d1 d2 -> keeps_files d2 d3 -> keeps_files d1 d3.
Proof. intros H12 H23 p H. apply H23, H12, H. Qed.

Lemma keeps_files_store (q : path) (b : bytes) (d : files) :
  keeps_files d (store_file q b d).
Proof. intros p H. destruct d, p, q; simpl in *; eauto. Qed.

Lemma keeps_files_saved (q : path) (saved : option bytes) (d : files) :
  keeps_files d (saved_disk q saved d).
Proof.
  destruct saved; [apply keeps_files_store | apply keeps_files_refl].
Qed.

Lemma fetch_leaf_cert_keeps (env : Env) (w : world) :
  keeps_files (disk w) (disk (snd (fetch_leaf_cert env w))).
Proof.
  rewrite fetch_leaf_cert_run. cbv zeta.
  destruct (Z.eqb _ 0); [|apply keeps_files_refl].
  destruct (re_search _ _); [|apply keeps_files_refl].
  destruct (encode_utf8 _); [apply keeps_files_store | apply keeps_files_refl].
Qed.

Lemma issuer_to_pem_keeps (env : Env) (w : world) :
  keeps_files (disk w) (disk (snd (issuer_to_pem env w))).
Proof.
  rewrite issuer_to_pem_disk.
  destruct (issuer_bin (disk w)) as [data|]; [|apply keeps_files_refl].
  destruct (contains _ _); [apply keeps_files_store | apply keeps_files_saved].
Qed.

Lemma build_bundle_keeps (env : Env) (w : world) :
  keeps_files (disk w) (disk (snd (build_bundle env w))).
Proof.
  pose proof (build_bundle_disk env w) as H.
  destruct (build_bundle env w) as [[[]|e] w']; simpl.
  - destruct H as [b ->]. apply keeps_files_store.
  - rewrite H. apply keeps_files_refl.
Qed.

(** X9.  No run removes a file: whatever [main] does and however it ends,
    every artifact that existed before the run exists after it.  (The
    script overwrites its artifacts and never cleans up.) *)
Theorem main_keeps_files (env : Env) (w : world) (p : path) :
  is_Some (lookup_file p (disk w)) ->
  is_Some (lookup_file p (disk (snd (main env w)))).
Proof.
  revert p. change (keeps_files (disk w) (disk (snd (main env w)))).
  rewrite main_run.
  pose proof (fetch_leaf_cert_keeps env w) as K1.
  destruct (fetch_leaf_cert env w) as [[[]|e1] w1]; simpl in K1;
    [|exact K1].
  pose proof (extract_aia_issuer_url_frame env w1) as K2.
  destruct (extract_aia_issuer_url env w1) as [[url|e2] w2]; simpl in K2;
    [|simpl; rewrite K2; exact K1].
  pose proof (download_issuer_disk env url w2) as K3.
  destruct (download_issuer env url w2) as [[[]|e3] w3]; simpl in K3.
  2:{ simpl. rewrite K3, K2.
      eapply keeps_files_trans; [exact K1 | apply keeps_files_saved]. }
  assert (keeps_files (disk w) (disk w3)) as K13.
  { rewrite K3, K2.
    eapply keeps_files_trans; [exact K1 | apply keeps_files_saved]. }
  pose proof (issuer_to_pem_keeps env w3) as K4.
  destruct (issuer_to_pem env w3) as [[[]|e4] w4]; simpl in K4.
  2:{ simpl. eapply keeps_files_trans; eassumption. }
  pose proof (build_bundle_keeps env w4) as K5.
  destruct (build_bundle env w4) as [[[]|e5] w5]; simpl in K5.
  2:{ simpl. eauto using keeps_files_trans. }
  pose proof (verify_bundle_disk env w5) as K6.
  destruct (verify_bundle env w5) as [[[]|e6] w6]; simpl in K6; simpl;
    rewrite K6; eauto using keeps_files_trans.
Qed.

(** ** Leftovers of earlier runs *)

Lemma fetch_leaf_cert_indep (env : Env) (w v : world) :
  fst (fetch_leaf_cert env w) = fst (fetch_leaf_cert env v) /\
  (fst (fetch_leaf_cert env w) = Return tt ->
   leaf_pem (disk (snd (fetch_leaf_cert env w)))
   = leaf_pem (disk (snd (fetch_leaf_cert env v)))).
Proof.
  rewrite !fetch_leaf_cert_run. cbv zeta.
  destruct (Z.eqb _ 0); [|split; [reflexivity | discriminate]].
  destruct (re_search _ _); [|split; [reflexivity | discriminate]].
  destruct (encode_utf8 _); split; try reflexivity; discriminate.
Qed.

Lemma extract_aia_issuer_url_indep (env : Env) (w v : world) :
  leaf_pem (disk w) = leaf_pem (disk v) ->
  fst (extract_aia_issuer_url env w) = fst (extract_aia_issuer_url env v).
Proof.
  intros H. rewrite !extract_aia_issuer_url_run. cbv zeta. rewrite H.
  destruct (Z.eqb _ 0); [|reflexivity].
  destruct (re_search _ _); reflexivity.
Qed.

Lemma download_issuer_indep (env : Env) (url : str) (w v : world) :
  (fst (curl env url) = 0%Z -> is_Some (snd (curl env url))) ->
  fst (download_issuer env url w) = fst (download_issuer env url v) /\
  (fst (download_issuer env url w) = Return tt ->
   issuer_bin (disk (snd (download_issuer env url w)))
   = issuer_bin (disk (snd (download_issuer env url v)))).
Proof.
  intros Hsave. rewrite !download_issuer_run. cbv zeta.
  destruct (Z.eqb _ 0) eqn:Hrc; [|split; [reflexivity | discriminate]].
  apply Z.eqb_eq in Hrc. destruct (Hsave Hrc) as [b ->]. simpl.
  destruct (length b <? 200)%nat; split; try reflexivity; discriminate.
Qed.

Lemma issuer_to_pem_indep (env : Env) (w v : world) :
  issuer_bin (disk w) = issuer_bin (disk v) ->
  (forall d, fst (x509_inform_DER env d) = 0%Z ->
             is_Some (snd (x509_inform_DER env d))) ->
  fst (issuer_to_pem env w) = fst (issuer_to_pem env v) /\
  (fst (issuer_to_pem env w) = Return tt ->
   issuer_pem (disk (snd (issuer_to_pem env w)))
   = issuer_pem (disk (snd (issuer_to_pem env v)))).
Proof.
  intros Hbin Hsave. rewrite !issuer_to_pem_run. cbv zeta. rewrite <- Hbin.
  destruct (issuer_bin (disk w)) as [data|];
    [|split; [reflexivity | discriminate]].
  destruct (contains BEGIN_CERTIFICATE data); [split; reflexivity|].
  destruct (Z.eqb _ 0) eqn:Hrc; [|split; [reflexivity | discriminate]].
  apply Z.eqb_eq in Hrc. destruct (Hsave _ Hrc) as [b ->]. simpl.
  destruct (decode_utf8 Ignore b); [|split; [reflexivity | discriminate]].
  destruct (contains _ _); split; try reflexivity; discriminate.
Qed.

Lemma build_bundle_indep (env : Env) (w v : world) :
  issuer_pem (disk w) = issuer_pem (disk v) ->
  fst (build_bundle env w) = fst (build_bundle env v) /\
  (fst (build_bundle env w) = Return tt ->
   bundle_pem (disk (snd (build_bundle env w)))
   = bundle_pem (disk (snd (build_bundle env v)))).
Proof.
  intros Hpem. rewrite !build_bundle_run. cbv zeta. rewrite <- Hpem.
  destruct (certifi_where env) as [rb|];
    [|split; [reflexivity | discriminate]].
  destruct (decode_utf8 Strict rb); [|split; [reflexivity | discriminate]].
  destruct (issuer_pem (disk w)) as [ib|];
    [|split; [reflexivity | discriminate]].
  destruct (decode_utf8 Strict ib); [|split; [reflexivity | discriminate]].
  destruct (encode_utf8 _); split; try reflexivity; discriminate.
Qed.

Lemma verify_bundle_indep (env : Env) (w v : world) :
  bundle_pem (disk w) = bundle_pem (disk v) ->
  fst (verify_bundle env w) = fst (verify_bundle env v).
Proof.
  intros H. rewrite !verify_bundle_run. cbv zeta. rewrite H.
  destruct (contains _ _); reflexivity.
Qed.

Lemma files_eq (d d' : files) :
  leaf_pem d = leaf_pem d' -> issuer_bin d = issuer_bin d' ->
  issuer_pem d = issuer_pem d' -> bundle_pem d = bundle_pem d' -> d = d'.
Proof. destruct d, d'; simpl; congruence. Qed.

(** X10.  When the tools write what they are asked to write ([curl] and
    the converter save their file whenever they end with status 0), a run
    does not depend on what earlier runs left in the working directory:
    started in any two working directories, [main] ends the same way, and
    when it returns the two directories hold the same four files. *)
Theorem main_ignores_leftovers (env : Env) (w v : world) :
  (forall url, fst (curl env url) = 0%Z -> is_Some (snd (curl env url))) ->
  (forall d, fst (x509_inform_DER env d) = 0%Z ->
             is_Some (snd (x509_inform_DER env d))) ->
  fst (main env w) = fst (main env v) /\
  (fst (main env w) = Return tt ->
   disk (snd (main env w)) = disk (snd (main env v))).
Proof.
  intros Hcurl Hconv. rewrite !main_run.
  destruct (fetch_leaf_cert_indep env w v) as [R1 Q1].
  pose proof (fetch_leaf_cert_frame env w) as (F1a & F1b & F1c).
  pose proof (fetch_leaf_cert_frame env v) as (G1a & G1b & G1c).
  destruct (fetch_leaf_cert env w) as [r1 w1].
  destruct (fetch_leaf_cert env v) as [r1' v1].
  simpl in R1, Q1, F1a, F1b, F1c, G1a, G1b, G1c. subst r1'.
  destruct r1 as [[]|e1]; [|split; [reflexivity | discriminate]].
  specialize (Q1 eq_refl).
  pose proof (extract_aia_issuer_url_indep env w1 v1 Q1) as R2.
  pose proof (extract_aia_issuer_url_frame env w1) as F2.
  pose proof (extract_aia_issuer_url_frame env v1) as G2.
  destruct (extract_aia_issuer_url env w1) as [r2 w2].
  destruct (extract_aia_issuer_url env v1) as [r2' v2].
  simpl in R2, F2, G2. subst r2'.
  destruct r2 as [url|e2]; [|split; [reflexivity | discriminate]].
  destruct (download_issuer_indep env url w2 v2 (Hcurl url)) as [R3 Q3].
  pose proof (download_issuer_frame env url w2) as (F3a & F3b & F3c).
  pose proof (download_issuer_frame env url v2) as (G3a & G3b & G3c).
  destruct (download_issuer env url w2) as [r3 w3].
  destruct (download_issuer env url v2) as [r3' v3].
  simpl in R3, Q3, F3a, F3b, F3c, G3a, G3b, G3c. subst r3'.
  destruct r3 as [[]|e3]; [|split; [reflexivity | discriminate]].
  specialize (Q3 eq_refl).
  destruct (issuer_to_pem_indep env w3 v3 Q3 Hconv) as [R4 Q4].
  pose proof (issuer_to_pem_frame env w3) as (F4a & F4b & F4c).
  pose proof (issuer_to_pem_frame env v3) as (G4a & G4b & G4c).
  destruct (issuer_to_pem env w3) as [r4 w4].
  destruct (issuer_to_pem env v3) as [r4' v4].
  simpl in R4, Q4, F4a, F4b, F4c, G4a, G4b, G4c. subst r4'.
  destruct r4 as [[]|e4]; [|split; [reflexivity | discriminate]].
  specialize (Q4 eq_refl).
  destruct (build_bundle_indep env w4 v4 Q4) as [R5 Q5].
  pose proof (build_bundle_frame env w4) as (F5a & F5b & F5c).
  pose proof (build_bundle_frame env v4) as (G5a & G5b & G5c).
  destruct (build_bundle env w4) as [r5 w5].
  destruct (build_bundle env v4) as [r5' v5].
  simpl in R5, Q5, F5a, F5b, F5c, G5a, G5b, G5c. subst r5'.
  destruct r5 as [[]|e5]; [|split; [reflexivity | discriminate]].
  specialize (Q5 eq_refl).
  pose proof (verify_bundle_indep env w5 v5 Q5) as R6.
  pose proof (verify_bundle_disk env w5) as F6.
  pose proof (verify_bundle_disk env v5) as G6.
  destruct (verify_bundle env w5) as [r6 w6].
  destruct (verify_bundle env v5) as [r6' v6].
  simpl in R6, F6, G6. subst r6'.
  destruct r6 as [[]|e6]; [|split; [reflexivity | discriminate]].
  split; [reflexivity|]. intros _. simpl. rewrite F6, G6.
  apply files_eq; congruence.
Qed.

(** ** The message of the verifier *)

Lemma splitlines_from_no_break (s cur l : str) :
  Forall (fun c => is_linebreak c = false) cur ->
  l ∈ splitlines_from cur s ->
  Forall (fun c => is_linebreak c = false) l.
Proof.
  remember (length s) as n eqn:Hn. revert s cur Hn.
  induction n as [n IH] using lt_wf_ind. intros [|c t] cur Hn Hcur; simpl.
  - destruct cur as [|c cur]; intros H.
    + inversion H.
    + apply list_elem_of_singleton in H as ->.
      apply Forall_reverse. exact Hcur.
  - simpl in Hn. destruct (is_linebreak c) eqn:Hc.
    + intros H. apply elem_of_cons in H as [-> | H].
      * apply Forall_reverse. exact Hcur.
      * destruct t as [|d t']; [inversion H|].
        destruct ((c =? CR) && (d =? NL)).
        -- apply (IH (length t')) in H; [exact H | simpl in Hn; lia
                                         | reflexivity | constructor].
        -- apply (IH (length (d :: t'))) in H;
             [exact H | simpl in Hn |- *; lia | reflexivity | constructor].
    + intros H. apply (IH (length t)) in H; [exact H | lia | reflexivity|].
      constructor; assumption.
Qed.

Lemma length_last_n {A : Type} (n : nat) (l : list A) :
  (length (last_n n l) <= n)%nat.
Proof. unfold last_n. rewrite length_drop. lia. Qed.

Lemma join_infix (sep l : str) (ls : list str) :
  l ∈ ls -> exists a b, join sep ls = a ++ l ++ b.
Proof.
  induction ls as [|x ls IH]; intros H; [inversion H|].
  apply elem_of_cons in H as [-> | H].
  - destruct ls as [|y ls]; simpl.
    + exists [], []. rewrite app_nil_r. reflexivity.
    + exists [], (sep ++ join sep (y :: ls)). reflexivity.
  - destruct (IH H) as (a & b & Hj). destruct ls as [|y ls]; [inversion H|].
    exists (x ++ sep ++ a), b.
    change (join sep (x :: y :: ls)) with (x ++ sep ++ join sep (y :: ls)).
    rewrite Hj, <- !app_assoc. reflexivity.
Qed.

(** X11.  When the verifier raises, its message is the heading followed
    by at most five lines joined by newlines: the last lines of what the
    client printed (standard output, a newline, standard error,
    stripped).  Each quoted line is a piece of that output, holds no line
    break, and does not contain the success phrase.  The verifier changes
    no file. *)
Theorem verify_bundle_message (env : Env) (w w' : world) (e : exn) :
  verify_bundle env w = (Raise e, w') ->
  let p := s_client_CAfile env (bundle_pem (disk w)) in
  let out := stdout p ++ [NL] ++ stderr p in
  exists ls,
    ls = last_n 5 (splitlines (strip out)) /\
    e = RuntimeError (MSG_VERIFY ++ join [NL] ls) /\
    (length ls <= 5)%nat /\
    Forall (fun l =>
              Forall (fun c => is_linebreak c = false) l /\
              (exists a b, out = a ++ l ++ b) /\
              contains VERIFY_OK l = false) ls /\
    disk w' = disk w.
Proof.
  rewrite verify_bundle_run. cbv zeta.
  destruct (contains VERIFY_OK _) eqn:Hc; [discriminate|].
  intros [= <- <-]. eexists. split; [reflexivity|].
  split; [reflexivity|]. split; [apply length_last_n|].
  split; [|reflexivity]. apply Forall_forall. intros l Hl.
  pose proof Hl as Hl'. apply (subseteq_drop _ _ l) in Hl'.
  split; [|split].
  - eapply (splitlines_from_no_break _ [] l); [constructor | exact Hl'].
  - apply splitlines_from_infix in Hl' as (a & b & Hs).
    change (reverse [] ++ ?x) with x in Hs.
    destruct (strip_infix
                (stdout (s_client_CAfile env (bundle_pem (disk w)))
                 ++ [NL] ++ stderr (s_client_CAfile env (bundle_pem (disk w)))))
      as (a' & b' & Hw).
    exists (a' ++ a), (b ++ b'). rewrite Hw at 1.
    rewrite Hs, <- !app_assoc. reflexivity.
  - destruct (contains VERIFY_OK l) eqn:Hin; [|reflexivity].
    apply contains_spec in Hin as (u & v & ->).
    destruct (join_infix [NL] _ _ Hl) as (a & b & Hj).
    unfold last_lines in Hc. rewrite Hj in Hc.
    rewrite contains_false in Hc.
    destruct (Hc (a ++ u) (v ++ b)). rewrite <- !app_assoc. reflexivity.
Qed.

(** ** The properties on the sample runs *)

(** The leaf fetcher of the sample run. *)
Lemma fetch_leaf_cert_returns_sample :
  returncode (s_client_showcerts sample_env) = 0%Z /\
  exists pre body post b,
    first_block (stdout (s_client_showcerts sample_env)) pre body post /\
    encode_utf8 (BEGIN_CERTIFICATE ++ body ++ END_CERTIFICATE ++ [NL])
    = Some b /\
    disk sample_world_1 = store_file LEAF_PEM b (disk new_world).
Proof.
  apply (fetch_leaf_cert_returns sample_env new_world sample_world_1).
  vm_compute. reflexivity.
Defined.

(** The locator of the sample run returns the sample URL. *)
Lemma extract_aia_issuer_url_returns_sample :
  let w' := snd (extract_aia_issuer_url sample_env sample_world_1) in
  let p := x509_text sample_env (leaf_pem (disk sample_world_1)) in
  returncode p = 0%Z /\ disk w' = disk sample_world_1 /\
  sample_url <> [] /\ Forall (fun c => is_space c = false) sample_url /\
  exists pre rest,
    stdout p = pre ++ CA_ISSUERS_URI ++ sample_url ++ rest /\
    match rest with [] => True | c :: _ => is_space c = true end /\
    forall pre' c post',
      stdout p = pre' ++ CA_ISSUERS_URI ++ c :: post' ->
      is_space c = false -> (length pre <= length pre')%nat.
Proof.
  apply (extract_aia_issuer_url_returns sample_env sample_world_1
           (snd (extract_aia_issuer_url sample_env sample_world_1))
           sample_url).
  vm_compute. reflexivity.
Defined.

(** The issuer fetcher of the sample run, in an empty directory. *)
Lemma download_issuer_returns_sample :
  let w' := snd (download_issuer sample_env sample_url new_world) in
  fst (curl sample_env sample_url) = 0%Z /\
  (exists b,
      issuer_bin (disk w') = Some b /\ (200 <= length b)%nat /\
      (snd (curl sample_env sample_url) = Some b \/
       snd (curl sample_env sample_url) = None /\
       issuer_bin (disk new_world) = Some b)) /\
  leaf_pem (disk w') = leaf_pem (disk new_world) /\
  issuer_pem (disk w') = issuer_pem (disk new_world) /\
  bundle_pem (disk w') = bundle_pem (disk new_world).
Proof.
  apply (download_issuer_returns sample_env sample_url new_world
           (snd (download_issuer sample_env sample_url new_world))).
  vm_compute. reflexivity.
Defined.

(** The normalizer on the PEM download of the sample run. *)
Lemma issuer_to_pem_returns_sample :
  let w' := snd (issuer_to_pem sample_env world_with_issuer) in
  (exists data ib text,
      issuer_bin (disk world_with_issuer) = Some data /\
      issuer_pem (disk w') = Some ib /\
      decode_utf8 Ignore ib = Some text /\
      contains (lit "BEGIN CERTIFICATE") (universal_newlines text) = true /\
      (contains BEGIN_CERTIFICATE data = true -> ib = data) /\
      (contains BEGIN_CERTIFICATE data = false ->
       fst (x509_inform_DER sample_env (Some data)) = 0%Z)) /\
  leaf_pem (disk w') = leaf_pem (disk world_with_issuer) /\
  issuer_bin (disk w') = issuer_bin (disk world_with_issuer) /\
  bundle_pem (disk w') = bundle_pem (disk world_with_issuer).
Proof.
  apply (issuer_to_pem_returns sample_env world_with_issuer
           (snd (issuer_to_pem sample_env world_with_issuer))).
  vm_compute. reflexivity.
Defined.

(** The normalizer on a binary download whose converter ends with status
    0 without writing its output. *)
Lemma issuer_to_pem_failures_sample :
  let w := World (Files None (Some (repeat 48 300)) None None) [] in
  let w' := snd (issuer_to_pem env_no_pem_written w) in
  let e := RuntimeError MSG_CONVERT in
  (e = FileNotFoundError /\ issuer_bin (disk w) = None /\ disk w' = disk w)
  \/
  (exists data,
      issuer_bin (disk w) = Some data /\
      contains BEGIN_CERTIFICATE data = false /\
      let rc := fst (x509_inform_DER env_no_pem_written (Some data)) in
      (rc <> 0%Z /\ e = CalledProcessError openssl_x509_inform_DER rc)
      \/
      (rc = 0%Z /\ e = RuntimeError MSG_CONVERT /\
       (issuer_pem (disk w') = None \/
        exists ib text,
          issuer_pem (disk w') = Some ib /\
          decode_utf8 Ignore ib = Some text /\
          contains (lit "BEGIN CERTIFICATE") (universal_newlines text)
          = false))).
Proof.
  apply (issuer_to_pem_failures env_no_pem_written
           (World (Files None (Some (repeat 48 300)) None None) [])
           (snd (issuer_to_pem env_no_pem_written
                   (World (Files None (Some (repeat 48 300)) None None) [])))
           (RuntimeError MSG_CONVERT)).
  vm_compute. reflexivity.
Defined.

(** The sample run from an empty directory. *)
Lemma main_returns_sample :
  let w' := snd (main sample_env new_world) in
  exists evs leaf data ib b url,
    log w' = log new_world ++ evs ++ [PrintBundleReady] /\
    entered evs = call_order /\
    (PrintBundleReady ∉ evs) /\
    (Exec (curl_L_o url) ∈ evs) /\
    disk w' = Files (Some leaf) (Some data) (Some ib) (Some b) /\
    (200 <= length data)%nat /\
    re_search match_ca_issuers (stdout (x509_text sample_env (Some leaf)))
    = Some url /\
    contains VERIFY_OK (last_lines (s_client_CAfile sample_env (Some b)))
    = true.
Proof.
  apply (main_returns sample_env new_world (snd (main sample_env new_world))).
  vm_compute. reflexivity.
Defined.

(** A run whose builder fails keeps the download it started with. *)
Lemma main_keeps_files_sample :
  is_Some (lookup_file ISSUER_BIN
             (disk (snd (main sample_env world_with_latin1_issuer)))).
Proof.
  apply (main_keeps_files sample_env world_with_latin1_issuer ISSUER_BIN).
  vm_compute. exact (ex_intro _ _ eq_refl).
Defined.

(** The sample run in an empty directory and in one with a leftover
    download. *)
Lemma main_ignores_leftovers_sample :
  fst (main sample_env new_world)
  = fst (main sample_env world_with_latin1_issuer) /\
  (fst (main sample_env new_world) = Return tt ->
   disk (snd (main sample_env new_world))
   = disk (snd (main sample_env world_with_latin1_issuer))).
Proof.
  apply (main_ignores_leftovers sample_env new_world world_with_latin1_issuer).
  - intros url _. vm_compute. exact (ex_intro _ _ eq_refl).
  - intros d H. vm_compute in H. discriminate H.
Defined.

(** The message for the rejected bundle of the samples. *)
Lemma verify_bundle_message_sample :
  let w' := snd (verify_bundle env_rejected new_world) in
  let p := s_client_CAfile env_rejected (bundle_pem (disk new_world)) in
  let out := stdout p ++ [NL] ++ stderr p in
  exists ls,
    ls = last_n 5 (splitlines (strip out)) /\
    RuntimeError (MSG_VERIFY ++ last_lines rejected)
    = RuntimeError (MSG_VERIFY ++ join [NL] ls) /\
    (length ls <= 5)%nat /\
    Forall (fun l =>
              Forall (fun c => is_linebreak c = false) l /\
              (exists a b, out = a ++ l ++ b) /\
              contains VERIFY_OK l = false) ls /\
    disk w' = disk new_world.
Proof.
  apply (verify_bundle_message env_rejected new_world
           (snd (verify_bundle env_rejected new_world))
           (RuntimeError (MSG_VERIFY ++ last_lines rejected))).
  vm_compute. reflexivity.
Defined.
